(** * ai-pass-scan: the batch document-extraction pipeline of [main.py]

    A shallow embedding of [process_single_document] and [scan_documents]
    together with the string helpers they call, and the properties of the
    pipeline: per-file failure isolation, batch validation, response
    normalisation, scratch-file cleanup and result aggregation.

    Conventions of the embedding.
    - A Python [str] is a [string]: the sequence of its code points, every
      code point below 256.
    - A Python [dict] is a [gmap string pyval].
    - Every call that leaves the process (clock, uuid, upload stream, file
      system, remote service, JSON reader) is answered by an environment
      [Env]; its answers may depend on the whole history of the run, which is
      recorded in the [World].
    - Code that may raise lives in the monad [M]: a state monad over [World]
      whose result is either [Return v] or [Raise e].  The exceptions are
      those that [except Exception] catches.
    - [os.path.splitext] is the one of [posixpath]; a clock reading is an
      integer number of ticks.
    - [JSONResponse(content=response)] renders its content when it is built
      and raises when the content does not render; the environment says
      which.  [scan_documents] returns the content of the response it
      built. *)

From stdpp Require Import gmap strings list pretty sorting.
From Stdlib Require Import Ascii String ZArith Permutation Sorted.

Open Scope string_scope.

(** ** Python strings *)

Module Str.

Definition dq : string := String "034" "".
Definition nl : string := String "010" "".
Definition quoted (s : string) : string := dq ++ s ++ dq.

(** [str.isspace] on one character: TAB..CR, FS..US, space, NEL, NBSP. *)
Definition isspace (c : ascii) : bool :=
  let n := nat_of_ascii c in
  (((9 <=? n) && (n <=? 13)) || ((28 <=? n) && (n <=? 32))
   || (n =? 133) || (n =? 160))%nat.

(** [str.lower] on one character: A-Z and the Latin-1 capitals.  Below 256
    [str.lower] maps a string character by character; the characters it
    treats by context or lengthens (the capital sigma, the dotted capital
    I) lie above and are not strings of the embedding. *)
Definition lower_char (c : ascii) : ascii :=
  let n := nat_of_ascii c in
  if (((65 <=? n) && (n <=? 90))
      || ((192 <=? n) && (n <=? 222) && negb (n =? 215)))%nat
  then ascii_of_nat (n + 32) else c.

Fixpoint lower (s : string) : string :=
  match s with
  | EmptyString => EmptyString
  | String c r => String (lower_char c) (lower r)
  end.

Fixpoint lstrip (s : string) : string :=
  match s with
  | EmptyString => EmptyString
  | String c r => if isspace c then lstrip r else s
  end.

Fixpoint rstrip (s : string) : string :=
  match s with
  | EmptyString => EmptyString
  | String c r =>
      match rstrip r with
      | EmptyString => if isspace c then EmptyString else String c EmptyString
      | r' => String c r'
      end
  end.

(** [s.strip()] *)
Definition strip (s : string) : string := rstrip (lstrip s).

(** [s[n:]] and [s[:n]] for [0 <= n]. *)
Fixpoint drop (n : nat) (s : string) : string :=
  match n, s with
  | O, _ => s
  | S _, EmptyString => EmptyString
  | S n', String _ r => drop n' r
  end.

Fixpoint take (n : nat) (s : string) : string :=
  match n, s with
  | O, _ => EmptyString
  | S _, EmptyString => EmptyString
  | S n', String c r => String c (take n' r)
  end.

(** [s[:-n]] for [0 < n]: everything but the last [n] characters. *)
Definition drop_last (n : nat) (s : string) : string :=
  take (String.length s - n) s.

Fixpoint startswith (s p : string) {struct p} : bool :=
  match p, s with
  | EmptyString, _ => true
  | String _ _, EmptyString => false
  | String a p', String b s' => Ascii.eqb a b && startswith s' p'
  end.

Definition endswith (s p : string) : bool :=
  (String.length p <=? String.length s)%nat
  && String.eqb (drop (String.length s - String.length p) s) p.

(** [sep.join(l)] *)
Fixpoint join (sep : string) (l : list string) : string :=
  match l with
  | [] => EmptyString
  | [x] => x
  | x :: r => x ++ sep ++ join sep r
  end.

(** [s.rfind(c)] for a single character: the last index, or -1. *)
Fixpoint rfind_from (i : Z) (s : string) (c : ascii) (last : Z) : Z :=
  match s with
  | EmptyString => last
  | String a r => rfind_from (i + 1) r c (if Ascii.eqb a c then i else last)
  end.

Definition rfind (s : string) (c : ascii) : Z := rfind_from 0 s c (-1).

(** [s[i:i+1]] for [0 <= i] *)
Definition char_at (s : string) (i : Z) : string :=
  take 1 (drop (Z.to_nat i) s).

(** The loop of [genericpath._splitext] that skips leading dots: [true]
    when some character in [filenameIndex, dotIndex) is not a dot. *)
Fixpoint has_stem (p : string) (n : nat) (filenameIndex : Z) : bool :=
  match n with
  | O => false
  | S n' =>
      if String.eqb (char_at p filenameIndex) "." then
        has_stem p n' (filenameIndex + 1)
      else true
  end.

(** [os.path.splitext] of [posixpath]: separator [/], no alternative
    separator, extension separator [.]. *)
Definition splitext (p : string) : string * string :=
  let sepIndex := rfind p "/" in
  let dotIndex := rfind p "." in
  if (sepIndex <? dotIndex)%Z
     && has_stem p (Z.to_nat (dotIndex - (sepIndex + 1))) (sepIndex + 1)
  then (take (Z.to_nat dotIndex) p, drop (Z.to_nat dotIndex) p)
  else (p, EmptyString).

(** Every character is whitespace. *)
Fixpoint all_space (s : string) : bool :=
  match s with
  | EmptyString => true
  | String c r => isspace c && all_space r
  end.

(** [needle in s] *)
Fixpoint contains (s needle : string) : bool :=
  startswith s needle
  || match s with
     | EmptyString => false
     | String _ r => contains r needle
     end.

End Str.

(** ** Values *)

(** What [json.loads] returns.  An object is the association list of its
    members in insertion order; a float keeps its literal. *)
#[warnings="-register-all"]
Inductive json : Type :=
| JNull
| JBool (b : bool)
| JInt (n : Z)
| JFloat (literal : string)
| JStr (s : string)
| JArr (items : list json)
| JObj (members : list (string * json)).

(** The values stored in the dictionaries the pipeline builds.  A clock
    reading, and so a duration, is a number of ticks. *)
Inductive pyval : Type :=
| VNone
| VInt (n : Z)
| VTime (ticks : Z)
| VStr (s : string)
| VJson (j : json).

Abbreviation dict := (gmap string pyval).

Abbreviation bytes := (list Init.Byte.byte).

(** [file.filename] is [Optional[str]]. *)
Record UploadFile : Type := mkUpload {
  filename : option string;
  stream : nat
}.

Definition py_filename (f : option string) : pyval :=
  match f with
  | Some s => VStr s
  | None => VNone
  end.

(** Truth value of an [Optional[str]]: [None] and the empty string are
    false. *)
Definition truthy (f : option string) : bool :=
  match f with
  | Some (String _ _) => true
  | _ => false
  end.

Inductive exn : Type :=
| Exception (msg : string)
| HTTPException (status_code : Z) (detail : string).

(** [str(e)] *)
Definition str_exn (e : exn) : string :=
  match e with
  | Exception msg => msg
  | HTTPException code detail => pretty code ++ ": " ++ detail
  end.

(** The dictionary [response] of lines 215-224; the key [errors] is present
    only when the list is not empty. *)
Record BatchSummary : Type := mkSummary {
  total_files : nat;
  successful_extractions : nat;
  failed_extractions : nat;
  total_processing_time : Z;
  results : list dict;
  errors : option (list dict)
}.

Definition errors_of (s : BatchSummary) : list dict :=
  default [] (errors s).

(** ** The world outside the process *)

Inductive Event : Type :=
| EClock
| EUuid
| ERead (f : UploadFile) (ok : bool)
| EOpen (path : string) (ok : bool)
| EWrite (path : string) (ok : bool)
| EUpload (path : string) (ok : bool)
| EGenerate (name : string) (ok : bool)
| EDeleteRemote (name : string) (ok : bool)
| EExists (path : string) (found : bool)
| ERemove (path : string) (ok : bool).

(** [fs]: the paths that exist in the staging directory; [trace]: the calls
    made so far, newest first. *)
Record World : Type := mkWorld {
  fs : gset string;
  trace : list Event
}.

Definition log (e : Event) (w : World) : World :=
  {| fs := fs w; trace := e :: trace w |}.

Inductive outcome (A : Type) : Type :=
| Ok (a : A)
| Fails (msg : string).
Arguments Ok {A} a.
Arguments Fails {A} msg.

(** The object returned by [generate_content]; reading [.text] may raise. *)
Record Response : Type := mkResponse { text : outcome string }.

Record Env : Type := mkEnv {
  clock : World -> Z;
  uuid4 : World -> string;
  file_read : UploadFile -> World -> outcome bytes;
  os_open : string -> World -> outcome unit;
  f_write : string -> bytes -> World -> outcome unit;
  upload_file : string -> string -> World -> outcome string;
  generate_content : string -> string -> string -> World -> outcome Response;
  delete_file : string -> World -> outcome unit;
  os_remove : string -> World -> outcome unit;
  json_loads : string -> outcome json;
  (** [JSONResponse.render], that is [json.dumps] with [allow_nan=False]
      followed by the UTF-8 encoding: whether the content renders, or the
      message of the exception ([ValueError] for a float that is NaN or
      infinite, [UnicodeEncodeError]) *)
  render : BatchSummary -> outcome unit;
  (** the order in which the set [allowed_extensions] is iterated *)
  set_order : list string
}.

(** ** The monad of code that may raise *)

Inductive Res (A : Type) : Type :=
| Return (a : A)
| Raise (e : exn).
Arguments Return {A} a.
Arguments Raise {A} e.

Definition M (A : Type) : Type := World -> Res A * World.

Definition ret {A} (a : A) : M A := fun w => (Return a, w).

Definition raise {A} (e : exn) : M A := fun w => (Raise e, w).

Definition bind {A B} (m : M A) (k : A -> M B) : M B :=
  fun w =>
    match m w with
    | (Return a, w') => k a w'
    | (Raise e, w') => (Raise e, w')
    end.

Notation "x <- m ;; k" := (bind m (fun x => k))
  (at level 100, m at next level, right associativity).
Notation "m ;;; k" := (bind m (fun _ => k))
  (at level 100, right associativity).

(** [try: m  except Exception as e: h e] *)
Definition try_except {A} (m : M A) (h : exn -> M A) : M A :=
  fun w =>
    match m w with
    | (Return a, w') => (Return a, w')
    | (Raise e, w') => h e w'
    end.

(** [try: m  finally: fin] -- an exception of [fin] replaces the outcome
    of [m]. *)
Definition try_finally {A} (m : M A) (fin : M unit) : M A :=
  fun w =>
    match m w with
    | (r, w') =>
        match fin w' with
        | (Return _, w'') => (r, w'')
        | (Raise e, w'') => (Raise e, w'')
        end
    end.

(** Lifts the answer of the environment, logging the call. *)
Definition call {A} (ans : World -> outcome A) (ev : bool -> Event)
    (effect : World -> World) : M A :=
  fun w =>
    match ans w with
    | Ok a => (Return a, log (ev true) (effect w))
    | Fails msg => (Raise (Exception msg), log (ev false) w)
    end.

Definition of_outcome {A} (o : outcome A) : M A :=
  match o with
  | Ok a => ret a
  | Fails msg => raise (Exception msg)
  end.

Definition create (path : string) (w : World) : World :=
  {| fs := {[ path ]} ∪ fs w; trace := trace w |}.

Definition unlink (path : string) (w : World) : World :=
  {| fs := fs w ∖ {[ path ]}; trace := trace w |}.

(** ** The pipeline *)

(** [get_extraction_prompt] *)
Definition get_extraction_prompt : string :=
  let field (indent k v : string) :=
    indent ++ Str.quoted k ++ ": " ++ Str.quoted v in
  let top k v := field "    " k v ++ "," ++ Str.nl in
  "Extract travel document information from the following and return ONLY a valid JSON object with these fields:"
  ++ Str.nl ++ Str.nl
  ++ "{" ++ Str.nl
  ++ top "document_type" "string (e.g., Flight, Train, Bus, Hotel, Visa, Insurance)"
  ++ top "pnr_booking_id" "string (PNR/booking ID)"
  ++ top "route" "string (e.g., DEL-BOM, NYC-LAX)"
  ++ top "service_provider" "string (e.g., IndiGo, Indian Railways, Marriott)"
  ++ top "vehicle_number" "string (Flight/Train number, Room number, etc.)"
  ++ top "journey_date" "string (YYYY-MM-DD format)"
  ++ top "journey_time" "string (departure/check-in time)"
  ++ top "arrival_time" "string (arrival/check-out time)"
  ++ top "travel_class" "string (Economy, Business, Deluxe, etc.)"
  ++ top "booking_amount" "string (with currency)"
  ++ "    " ++ Str.quoted "passenger_list" ++ ": [" ++ Str.nl
  ++ "        {" ++ Str.nl
  ++ field "            " "name" "string" ++ "," ++ Str.nl
  ++ field "            " "age" "string" ++ "," ++ Str.nl
  ++ "            " ++ Str.quoted "primary" ++ ": boolean" ++ Str.nl
  ++ "        }" ++ Str.nl
  ++ "    ]," ++ Str.nl
  ++ "    " ++ Str.quoted "additional_info" ++ ": {}" ++ Str.nl
  ++ "}" ++ Str.nl ++ Str.nl
  ++ "If any field is not found or not applicable, use null. Return ONLY the JSON, no additional text.".

(** Lines 102-105: the leading fence. *)
Definition strip_leading_fence (response_text : string) : string :=
  if Str.startswith response_text "```json" then Str.drop 7 response_text
  else if Str.startswith response_text "```" then Str.drop 3 response_text
  else response_text.

(** Lines 106-107: the trailing fence. *)
Definition strip_trailing_fence (response_text : string) : string :=
  if Str.endswith response_text "```" then Str.drop_last 3 response_text
  else response_text.

(** Lines 101-109 of [process_single_document]: the text handed to
    [json.loads]. *)
Definition normalize_response (text : string) : string :=
  let response_text := Str.strip text in
  let response_text := strip_leading_fence response_text in
  let response_text := strip_trailing_fence response_text in
  Str.strip response_text.

(** The dictionary of lines 198-202 and 209. *)
Definition error_entry (file_index : Z) (name : option string) (err : pyval)
    : dict :=
  {[ "file_index" := VInt file_index;
     "filename" := py_filename name;
     "error" := err ]}.

(** The dictionary of line 128. *)
Definition error_dict (file_index : Z) (name : option string) (msg : string)
    : dict :=
  error_entry file_index name (VStr msg).

(** The dictionary of lines 112-118. *)
Definition result_dict (file_index : Z) (name : option string)
    (processing_time : Z) (data : json) : dict :=
  {[ "file_index" := VInt file_index;
     "filename" := py_filename name;
     "processing_method" := VStr "gemini_direct";
     "processing_time" := VTime processing_time;
     "data" := VJson data ]}.

Definition unsupported_msg (file_ext : string) : string :=
  "Only PDF files are supported for direct Gemini processing. Unsupported file type: "
  ++ file_ext.

Definition direct_failed_msg (msg : string) : string :=
  "Direct Gemini processing failed: " ++ msg.

Section Pipeline.

Variable env : Env.

Definition time_time : M Z :=
  fun w => (Return (clock env w), log EClock w).

Definition uuid_str : M string :=
  fun w => (Return (uuid4 env w), log EUuid w).

Definition read (file : UploadFile) : M bytes :=
  call (file_read env file) (ERead file) id.

Definition open_wb (path : string) : M unit :=
  call (os_open env path) (EOpen path) (create path).

Definition write (path : string) (content : bytes) : M unit :=
  call (f_write env path content) (EWrite path) id.

Definition genai_upload_file (path mime_type : string) : M string :=
  call (upload_file env path mime_type) (EUpload path) id.

Definition genai_generate_content (model name prompt : string)
    : M Response :=
  call (generate_content env model name prompt) (EGenerate name) id.

Definition genai_delete_file (name : string) : M unit :=
  call (delete_file env name) (EDeleteRemote name) id.

Definition os_path_exists (path : string) : M bool :=
  fun w =>
    let found := bool_decide (path ∈ fs w) in
    (Return found, log (EExists path found) w).

Definition os_remove_path (path : string) : M unit :=
  call (os_remove env path) (ERemove path) (unlink path).

(** [os.path.splitext(None)] raises a [TypeError]. *)
Definition str_arg (name : option string) : M string :=
  match name with
  | Some s => ret s
  | None =>
      raise (Exception
        "expected str, bytes or os.PathLike object, not NoneType")
  end.

(** Lines 85-87: persist the upload to the scratch copy. *)
Definition save_upload (file : UploadFile) (temp_file_path : string)
    : M unit :=
  content <- read file ;;
  open_wb temp_file_path ;;;
  write temp_file_path content.

(** Lines 92-109: the body of the inner [try]. *)
Definition gemini_direct (temp_file_path : string) : M json :=
  uploaded_file <- genai_upload_file temp_file_path "application/pdf" ;;
  let model := "gemini-2.5-flash" in
  let prompt := get_extraction_prompt in
  response <- genai_generate_content model uploaded_file prompt ;;
  genai_delete_file uploaded_file ;;;
  response_text <- of_outcome (text response) ;;
  of_outcome (json_loads env (normalize_response response_text)).

(** Lines 83-128: the [try] with its [except] clause. *)
Definition process_attempt (file : UploadFile) (gemini_only : bool)
    (file_index start_time : Z) (file_ext temp_file_path : string)
    : M dict :=
  try_except
    (save_upload file temp_file_path ;;;
     if String.eqb file_ext ".pdf" then
       try_except
         (data <- gemini_direct temp_file_path ;;
          now <- time_time ;;
          let processing_time := (now - start_time)%Z in
          ret (result_dict file_index (filename file) processing_time data))
         (fun e => raise (Exception (direct_failed_msg (str_exn e))))
     else
       raise (Exception (unsupported_msg file_ext)))
    (fun e => ret (error_dict file_index (filename file) (str_exn e))).

(** Lines 130-136: the [finally] clause. *)
Definition cleanup (temp_file_path : string) : M unit :=
  found <- os_path_exists temp_file_path ;;
  if found then
    try_except (os_remove_path temp_file_path) (fun _ => ret tt)
  else ret tt.

Definition temp_path (u : string) (file_index : Z) (file_ext : string)
    : string :=
  let temp_id := Str.take 8 u ++ "_" ++ pretty file_index in
  "tmp/" ++ temp_id ++ file_ext.

Definition ext_of (name : string) : string :=
  Str.lower (snd (Str.splitext name)).

Definition process_single_document (file : UploadFile) (gemini_only : bool)
    (file_index : Z) : M dict :=
  start_time <- time_time ;;
  u <- uuid_str ;;
  name <- str_arg (filename file) ;;
  let file_ext := ext_of name in
  let temp_file_path := temp_path u file_index file_ext in
  try_finally
    (process_attempt file gemini_only file_index start_time
       file_ext temp_file_path)
    (cleanup temp_file_path).

End Pipeline.

(** ** The batch coordinator *)

Definition allowed_extensions : gset string :=
  {[ ".pdf"; ".jpg"; ".jpeg"; ".png" ]}.

(** [not file.filename] for every file (line 169). *)
Definition all_unnamed (files : list UploadFile) : bool :=
  forallb (fun file => negb (truthy (filename file))) files.

(** [f.filename and f.filename.strip()] (line 173). *)
Definition is_valid (f : UploadFile) : bool :=
  truthy (filename f) && truthy (Str.strip <$> filename f).

Definition unsupported_detail (order : list string) (file_ext : string)
    : string :=
  "Unsupported file type: " ++ file_ext ++ ". Allowed: "
  ++ Str.join ", " order.

Section Batch.

Variable env : Env.

(** Lines 180-186. *)
Fixpoint check_extensions (valid_files : list UploadFile) : M unit :=
  match valid_files with
  | [] => ret tt
  | file :: rest =>
      name <- str_arg (filename file) ;;
      let file_ext := ext_of name in
      if bool_decide (file_ext ∈ allowed_extensions) then
        check_extensions rest
      else
        raise (HTTPException 400
                 (unsupported_detail (set_order env) file_ext))
  end.

(** Lines 168-186: the filtered list, or the [HTTPException]. *)
Definition validate (files : list UploadFile) : M (list UploadFile) :=
  if match files with [] => true | _ => false end || all_unnamed files
  then raise (HTTPException 400 "No valid files uploaded")
  else
    let valid_files := List.filter is_valid files in
    match valid_files with
    | [] => raise (HTTPException 400 "No valid files to process")
    | _ => check_extensions valid_files ;;; ret valid_files
    end.

(** Lines 193-210: one iteration of the loop. *)
Definition process_one (gemini_only : bool) (file_index : nat)
    (file : UploadFile) (acc : list dict * list dict)
    : M (list dict * list dict) :=
  let '(results, errors) := acc in
  try_except
    (result <- process_single_document env file gemini_only
                 (Z.of_nat file_index) ;;
     match result !! "error" with
     | Some err =>
         ret (results,
              (errors ++ [error_entry (Z.of_nat file_index)
                            (filename file) err])%list)
     | None => ret ((results ++ [result])%list, errors)
     end)
    (fun e =>
       ret (results,
            (errors ++ [error_dict (Z.of_nat file_index)
                          (filename file) (str_exn e)])%list)).

(** Lines 192-210: [for file_index, file in enumerate(valid_files)],
    entered at [file_index]. *)
Fixpoint process_files (gemini_only : bool) (files : list UploadFile)
    (file_index : nat) (acc : list dict * list dict)
    : M (list dict * list dict) :=
  match files with
  | [] => ret acc
  | file :: rest =>
      acc' <- process_one gemini_only file_index file acc ;;
      process_files gemini_only rest (S file_index) acc'
  end.

(** [JSONResponse(content=response)] (line 226): building the response
    renders the content. *)
Definition JSONResponse (content : BatchSummary) : M BatchSummary :=
  of_outcome (render env content) ;;; ret content.

Definition scan_documents (files : list UploadFile) (gemini_only : bool)
    : M BatchSummary :=
  start_time <- time_time env ;;
  valid_files <- validate files ;;
  acc <- process_files gemini_only valid_files 0 ([], []) ;;
  let '(results, errors) := acc in
  now <- time_time env ;;
  let total_processing_time := (now - start_time)%Z in
  let response :=
    {| total_files := List.length valid_files;
       successful_extractions := List.length results;
       failed_extractions := List.length errors;
       total_processing_time := total_processing_time;
       results := results;
       errors := match errors with [] => None | _ => Some errors end |} in
  JSONResponse response.

End Batch.

(** ** A JSON reader and a renderer

    An instance for [json_loads]: a recursive-descent reader of JSON
    documents (objects, arrays, strings with the one-character escapes,
    numbers, [true], [false], [null], and the constants [NaN], [Infinity]
    and [-Infinity] that [json.loads] accepts).  An instance for [render]:
    the content is refused when the data of a result hold one of these
    constants.  The theorems below hold for every [json_loads] and every
    [render]; these two instantiate them. *)

Module Json.

Definition is_ws (c : ascii) : bool :=
  let n := nat_of_ascii c in
  ((n =? 32) || (n =? 9) || (n =? 10) || (n =? 13))%nat.

Fixpoint skip_ws (s : string) : string :=
  match s with
  | String c r => if is_ws c then skip_ws r else s
  | EmptyString => EmptyString
  end.

Definition is_digit (c : ascii) : bool :=
  let n := nat_of_ascii c in ((48 <=? n) && (n <=? 57))%nat.

Fixpoint digits (s : string) : string * string :=
  match s with
  | String c r =>
      if is_digit c then let '(d, rest) := digits r in (String c d, rest)
      else (EmptyString, s)
  | EmptyString => (EmptyString, EmptyString)
  end.

Fixpoint Z_of_digits (acc : Z) (d : string) : Z :=
  match d with
  | String c r => Z_of_digits (10 * acc + (Z.of_nat (nat_of_ascii c) - 48)) r
  | EmptyString => acc
  end.

(** The characters of a string literal after its opening quote. *)
Fixpoint string_body (s : string) : option (string * string) :=
  match s with
  | EmptyString => None
  | String c r =>
      if Ascii.eqb c "034" then Some (EmptyString, r)
      else if Ascii.eqb c "\" then
        match r with
        | String e r' =>
            let unescaped :=
              if Ascii.eqb e "034" then Some "034"%char
              else if Ascii.eqb e "\" then Some "\"%char
              else if Ascii.eqb e "/" then Some "/"%char
              else if Ascii.eqb e "b" then Some "008"%char
              else if Ascii.eqb e "f" then Some "012"%char
              else if Ascii.eqb e "n" then Some "010"%char
              else if Ascii.eqb e "r" then Some "013"%char
              else if Ascii.eqb e "t" then Some "009"%char
              else None in
            match unescaped, string_body r' with
            | Some u, Some (body, rest) => Some (String u body, rest)
            | _, _ => None
            end
        | EmptyString => None
        end
      else if (nat_of_ascii c <? 32)%nat then None
      else
        match string_body r with
        | Some (body, rest) => Some (String c body, rest)
        | None => None
        end
  end.

(** A number: [-]digits, then an optional fraction and exponent. *)
Definition number (s : string) : option (json * string) :=
  let '(neg, s1) :=
    match s with
    | String "-" r => (true, r)
    | _ => (false, s)
    end in
  let '(int_part, s2) := digits s1 in
  let well_formed :=
    match int_part with
    | EmptyString => false
    | String "0" (String _ _) => false
    | _ => true
    end in
  if negb well_formed then None
  else
    let '(frac, s3) :=
      match s2 with
      | String "." r => let '(d, rest) := digits r in ("." ++ d, rest)
      | _ => (EmptyString, s2)
      end in
    let '(expo, s4) :=
      match s3 with
      | String c r =>
          if Ascii.eqb c "e" || Ascii.eqb c "E" then
            let '(sign, r') :=
              match r with
              | String "+" r' => ("+", r')
              | String "-" r' => ("-", r')
              | _ => (EmptyString, r)
              end in
            let '(d, rest) := digits r' in
            (String c (sign ++ d), rest)
          else (EmptyString, s3)
      | EmptyString => (EmptyString, s3)
      end in
    let sign := if neg then "-" else EmptyString in
    match frac, expo with
    | EmptyString, EmptyString =>
        let n := Z_of_digits 0 int_part in
        Some (JInt (if neg then - n else n), s4)
    | _, _ =>
        if String.eqb frac "." then None
        else if Str.endswith expo "e" || Str.endswith expo "E"
                || Str.endswith expo "+" || Str.endswith expo "-"
        then None
        else Some (JFloat (sign ++ int_part ++ frac ++ expo), s4)
    end.

(** [d[k] = v] on a dictionary kept in insertion order. *)
Fixpoint obj_set (k : string) (v : json) (l : list (string * json))
    : list (string * json) :=
  match l with
  | [] => [(k, v)]
  | (k', v') :: r =>
      if String.eqb k k' then (k, v) :: r else (k', v') :: obj_set k v r
  end.

Fixpoint value (fuel : nat) (s : string) : option (json * string) :=
  match fuel with
  | O => None
  | S fuel' =>
      let s := skip_ws s in
      if Str.startswith s "null" then Some (JNull, Str.drop 4 s)
      else if Str.startswith s "true" then Some (JBool true, Str.drop 4 s)
      else if Str.startswith s "false" then Some (JBool false, Str.drop 5 s)
      else if Str.startswith s "NaN" then Some (JFloat "NaN", Str.drop 3 s)
      else if Str.startswith s "Infinity" then
        Some (JFloat "Infinity", Str.drop 8 s)
      else if Str.startswith s "-Infinity" then
        Some (JFloat "-Infinity", Str.drop 9 s)
      else
        match s with
        | String "034" r =>
            match string_body r with
            | Some (body, rest) => Some (JStr body, rest)
            | None => None
            end
        | String "[" r =>
            match skip_ws r with
            | String "]" rest => Some (JArr [], rest)
            | _ =>
                match items fuel' r with
                | Some (l, rest) => Some (JArr l, rest)
                | None => None
                end
            end
        | String "{" r =>
            match skip_ws r with
            | String "}" rest => Some (JObj [], rest)
            | _ =>
                match members fuel' [] r with
                | Some (l, rest) => Some (JObj l, rest)
                | None => None
                end
            end
        | _ => number s
        end
  end
with items (fuel : nat) (s : string) : option (list json * string) :=
  match fuel with
  | O => None
  | S fuel' =>
      match value fuel' s with
      | Some (v, rest) =>
          match skip_ws rest with
          | String "]" rest' => Some ([v], rest')
          | String "," rest' =>
              match items fuel' rest' with
              | Some (l, rest'') => Some (v :: l, rest'')
              | None => None
              end
          | _ => None
          end
      | None => None
      end
  end
with members (fuel : nat) (acc : list (string * json)) (s : string)
    : option (list (string * json) * string) :=
  match fuel with
  | O => None
  | S fuel' =>
      match skip_ws s with
      | String "034" r =>
          match string_body r with
          | Some (key, rest) =>
              match skip_ws rest with
              | String ":" rest' =>
                  match value fuel' rest' with
                  | Some (v, rest'') =>
                      let acc' := obj_set key v acc in
                      match skip_ws rest'' with
                      | String "}" rest3 => Some (acc', rest3)
                      | String "," rest3 => members fuel' acc' rest3
                      | _ => None
                      end
                  | None => None
                  end
              | _ => None
              end
          | None => None
          end
      | _ => None
      end
  end.

Definition loads (s : string) : outcome json :=
  match value (2 * String.length s + 2) s with
  | Some (v, rest) =>
      match skip_ws rest with
      | EmptyString => Ok v
      | _ => Fails "Extra data"
      end
  | None => Fails "Expecting value"
  end.

(** The floats that [json.dumps] refuses under [allow_nan=False]. *)
Definition out_of_range (literal : string) : bool :=
  String.eqb literal "NaN" || String.eqb literal "Infinity"
  || String.eqb literal "-Infinity".

Fixpoint compliant (j : json) : bool :=
  match j with
  | JFloat literal => negb (out_of_range literal)
  | JArr items => forallb compliant items
  | JObj members => forallb (fun kv => let '(_, v) := kv in compliant v) members
  | _ => true
  end.

Definition compliant_entry (d : dict) : bool :=
  match d !! "data" with
  | Some (VJson j) => compliant j
  | _ => true
  end.

Definition render (content : BatchSummary) : outcome unit :=
  if forallb compliant_entry (results content) then Ok tt
  else Fails "Out of range float values are not JSON compliant".

End Json.


(** ** Concrete environments

    A scripted environment answers every call of one kind with the same
    answer, except that the answer to a remote upload may depend on the
    scratch path. *)

Record Script : Type := mkScript {
  read_ans : outcome bytes;
  open_ans : outcome unit;
  write_ans : outcome unit;
  upload_ans : string -> outcome string;
  text_ans : outcome string;
  delete_ans : outcome unit;
  remove_ans : outcome unit
}.

Definition scripted (s : Script) : Env :=
  {| clock := fun w => Z.of_nat (List.length (trace w));
     uuid4 := fun _ => "0f8fad5b-d9cb-469f-a165-70867728950e";
     file_read := fun _ _ => read_ans s;
     os_open := fun _ _ => open_ans s;
     f_write := fun _ _ _ => write_ans s;
     upload_file := fun path _ _ => upload_ans s path;
     generate_content := fun _ _ _ _ => Ok (mkResponse (text_ans s));
     delete_file := fun _ _ => delete_ans s;
     os_remove := fun _ _ => remove_ans s;
     json_loads := Json.loads;
     render := Json.render;
     set_order := [".jpg"; ".pdf"; ".jpeg"; ".png"] |}.

Definition flight_text : string :=
  "{" ++ Str.quoted "document_type" ++ ":" ++ Str.quoted "Flight" ++ "}".

Definition flight_object : json := JObj [("document_type", JStr "Flight")].

(** The raw service text [```json\n{"document_type":"Flight"}\n```]. *)
Definition fenced_flight : string :=
  "```json" ++ Str.nl ++ flight_text ++ Str.nl ++ "```".

Definition all_ok : Script :=
  {| read_ans := Ok [];
     open_ans := Ok tt;
     write_ans := Ok tt;
     upload_ans := fun _ => Ok "files/k3x9";
     text_ans := Ok fenced_flight;
     delete_ans := Ok tt;
     remove_ans := Ok tt |}.

Definition read_fails : Script :=
  {| read_ans := Fails "stream closed";
     open_ans := Ok tt;
     write_ans := Ok tt;
     upload_ans := fun _ => Ok "files/k3x9";
     text_ans := Ok fenced_flight;
     delete_ans := Ok tt;
     remove_ans := Ok tt |}.

Definition remote_delete_fails : Script :=
  {| read_ans := Ok [];
     open_ans := Ok tt;
     write_ans := Ok tt;
     upload_ans := fun _ => Ok "files/k3x9";
     text_ans := Ok fenced_flight;
     delete_ans := Fails "403 permission denied";
     remove_ans := Ok tt |}.

Definition remove_fails : Script :=
  {| read_ans := Ok [];
     open_ans := Ok tt;
     write_ans := Ok tt;
     upload_ans := fun _ => Ok "files/k3x9";
     text_ans := Ok fenced_flight;
     delete_ans := Ok tt;
     remove_ans := Fails "device busy" |}.

(** The remote upload fails for the file staged with index 1. *)
Definition second_upload_fails : Script :=
  {| read_ans := Ok [];
     open_ans := Ok tt;
     write_ans := Ok tt;
     upload_ans := fun path =>
       if Str.endswith path "_1.pdf" then Fails "quota exceeded"
       else Ok "files/k3x9";
     text_ans := Ok fenced_flight;
     delete_ans := Ok tt;
     remove_ans := Ok tt |}.

(** The service answers with an amount that is not a number. *)
Definition nan_text : string := "{" ++ Str.quoted "fare" ++ ": NaN}".

Definition fare_is_nan : Script :=
  {| read_ans := Ok [];
     open_ans := Ok tt;
     write_ans := Ok tt;
     upload_ans := fun _ => Ok "files/k3x9";
     text_ans := Ok nan_text;
     delete_ans := Ok tt;
     remove_ans := Ok tt |}.

Definition w0 : World := {| fs := ∅; trace := [] |}.

Definition upload (name : string) (n : nat) : UploadFile :=
  {| filename := Some name; stream := n |}.

Definition two_pdfs : list UploadFile := [upload "a.pdf" 0; upload "b.PDF" 1].

(** An upload whose filename is empty, between two named ones. *)
Definition with_unnamed : list UploadFile :=
  [upload "b.pdf" 0; upload "" 1; upload "a.pdf" 2].

(** An upload whose filename is one space, between two named ones. *)
Definition with_space : list UploadFile :=
  [upload "a.pdf" 0; upload " " 1; upload "b.pdf" 2].

(** ** Vocabulary of the properties *)

(** What [JSONResponse] makes of a content: the content when it renders,
    the exception of the rendering otherwise. *)
Definition rendered (env : Env) (content : BatchSummary) : Res BatchSummary :=
  match render env content with
  | Ok _ => Return content
  | Fails msg => Raise (Exception msg)
  end.

(** The extension [scan_documents] and [process_single_document] compute
    for a file. *)
Definition file_ext_of (f : UploadFile) : string :=
  match filename f with
  | Some name => ext_of name
  | None => EmptyString
  end.

Definition offending (f : UploadFile) : bool :=
  negb (bool_decide (file_ext_of f ∈ allowed_extensions)).

(** A filename that is missing, empty or made of whitespace only. *)
Definition blank (name : option string) : bool :=
  match name with
  | None => true
  | Some s => Str.all_space s
  end.

(** The two details with which the batch is refused as empty. *)
Definition empty_batch (e : exn) : Prop :=
  e = HTTPException 400 "No valid files uploaded"
  \/ e = HTTPException 400 "No valid files to process".

(** A FileResult has [data] and no [error]; a FileError has [error] and no
    [data]. *)
Definition is_file_result (d : dict) : Prop :=
  d !! "error" = None /\ is_Some (d !! "data")
  /\ d !! "processing_method" = Some (VStr "gemini_direct").

Definition is_file_error (d : dict) : Prop :=
  is_Some (d !! "error") /\ d !! "data" = None.

(** [d] is the entry of the file at position [k] of the enumeration of
    [files] that starts at [i]. *)
Definition entry_of (i : nat) (files : list UploadFile) (d : dict) (k : nat)
    : Prop :=
  (i <= k)%nat
  /\ exists f, files !! (k - i)%nat = Some f
       /\ d !! "file_index" = Some (VInt (Z.of_nat k))
       /\ d !! "filename" = Some (py_filename (filename f)).

(** The entries the loop appends for [files], enumerated from [i]: every
    file adds one dictionary, to the results or to the errors. *)
Inductive Outcomes : nat -> list UploadFile -> list dict -> list dict -> Prop :=
| outcomes_nil (i : nat) : Outcomes i [] [] []
| outcomes_result (i : nat) (f : UploadFile) (rest : list UploadFile)
    (t : Z) (data : json) (R E : list dict) :
    Outcomes (S i) rest R E ->
    Outcomes i (f :: rest)
      (result_dict (Z.of_nat i) (filename f) t data :: R) E
| outcomes_error (i : nat) (f : UploadFile) (rest : list UploadFile)
    (msg : string) (R E : list dict) :
    Outcomes (S i) rest R E ->
    Outcomes i (f :: rest) R
      (error_dict (Z.of_nat i) (filename f) msg :: E).

(** The world in which the [try] block of a call entered in [w] starts, and
    the scratch path of that call. *)
Definition entered (w : World) : World := log EUuid (log EClock w).

Definition scratch_path (env : Env) (file : UploadFile) (idx : Z) (w : World)
    : string :=
  temp_path (uuid4 env (log EClock w)) idx (file_ext_of file).

(** The dictionary a call returned, if it returned. *)
Definition returned (r : Res dict) : dict :=
  match r with
  | Return d => d
  | Raise _ => ∅
  end.

(** The world after the upload and the generation have been answered. *)
Definition answered (path rname : string) (w : World) : World :=
  log (EGenerate rname true) (log (EUpload path true) w).

Definition unnamed (f : UploadFile) : Prop :=
  filename f = None \/ filename f = Some EmptyString.

(** *** The statements that the code does not satisfy as they are worded *)

(** C3 as worded: an unsupported extension on any filename of the batch
    makes the call fail with the unsupported-type detail. *)
Definition rejects_every_unsupported (env : Env) (files : list UploadFile)
    (g : bool) (w : World) : Prop :=
  (exists f, f ∈ files /\ file_ext_of f ∉ allowed_extensions) ->
  exists ext w',
    scan_documents env files g w
    = (Raise (HTTPException 400 (unsupported_detail (set_order env) ext)), w').

(** C5 as worded: a file that is not a PDF yields a FileError whose message
    names its extension. *)
Definition non_pdf_names_extension (env : Env) (file : UploadFile) (g : bool)
    (idx : Z) (w : World) : Prop :=
  file_ext_of file <> ".pdf" ->
  exists msg w',
    process_single_document env file g idx w
    = (Return (error_dict idx (filename file) msg), w')
    /\ Str.contains msg (file_ext_of file) = true.

(** C7 as worded: after the call the scratch file does not exist. *)
Definition scratch_always_gone (env : Env) (file : UploadFile) (g : bool)
    (idx : Z) (w : World) : Prop :=
  exists d w',
    process_single_document env file g idx w = (Return d, w')
    /\ scratch_path env file idx w ∉ fs w'.

(** C9 as worded: once the upload and the generation have succeeded, the
    parsed response is returned as a FileResult, whatever the deletion of
    the remote file does. *)
Definition remote_delete_harmless (env : Env) (file : UploadFile) (g : bool)
    (idx : Z) (w : World) : Prop :=
  forall (w2 : World) (rname : string) (r : Response) (raw : string)
         (data : json),
    file_ext_of file = ".pdf" ->
    save_upload env file (scratch_path env file idx w) (entered w)
    = (Return tt, w2) ->
    upload_file env (scratch_path env file idx w) "application/pdf" w2
    = Ok rname ->
    generate_content env "gemini-2.5-flash" rname get_extraction_prompt
      (log (EUpload (scratch_path env file idx w) true) w2) = Ok r ->
    text r = Ok raw ->
    json_loads env (normalize_response raw) = Ok data ->
    exists t w',
      process_single_document env file g idx w
      = (Return (result_dict idx (filename file) t data), w').

(** C8 as worded: the files that are dropped are those whose filename is
    empty or missing, so [total_files] counts the files whose filename is
    not empty. *)
Definition drops_only_unnamed (env : Env) (files : list UploadFile)
    (g : bool) (w : World) : Prop :=
  forall s w',
    scan_documents env files g w = (Return s, w') ->
    total_files s
    = List.length (List.filter (fun f => truthy (filename f)) files).

(** C10 as worded: the batch is refused as empty exactly when the list is
    empty or every filename is empty or missing. *)
Definition empty_batch_as_worded (env : Env) (files : list UploadFile)
    (g : bool) (w : World) : Prop :=
  (exists e w', scan_documents env files g w = (Raise e, w') /\ empty_batch e)
  <-> (files = [] \/ Forall unnamed files).

(** ** Vocabulary of the further properties *)

(** The uploads whose stream was read, newest first. *)
Fixpoint reads (t : list Event) : list UploadFile :=
  match t with
  | [] => []
  | ERead f _ :: r => f :: reads r
  | _ :: r => reads r
  end.

Definition is_read (e : Event) : bool :=
  match e with
  | ERead _ _ => true
  | _ => false
  end.

Definition is_remote (e : Event) : bool :=
  match e with
  | EUpload _ _ | EGenerate _ _ | EDeleteRemote _ _ => true
  | _ => false
  end.

(** The calls to the remote service, newest first. *)
Definition remote_calls (t : list Event) : list Event :=
  List.filter is_remote t.

(** [w'] is [w] after further calls. *)
Definition later (w w' : World) : Prop :=
  exists evs, trace w' = (evs ++ trace w)%list.

(** Every run of [m] takes a world to one that [R] relates to it. *)
Definition preserves (R : World -> World -> Prop) {A : Type} (m : M A)
    : Prop :=
  forall w, R w (snd (m w)).

(** [a] is a contiguous piece of [b]. *)
Definition infix_of (a b : string) : Prop :=
  exists pre suf, b = pre ++ a ++ suf.

(** [c] does not occur in [s]. *)
Fixpoint free_of (c : ascii) (s : string) : bool :=
  match s with
  | EmptyString => true
  | String a r => negb (Ascii.eqb a c) && free_of c r
  end.

(** A code point below 128. *)
Definition is_ascii (c : ascii) : bool := (nat_of_ascii c <? 128)%nat.

(** A decimal digit or the minus sign. *)
Definition is_numeral (c : ascii) : bool :=
  let n := nat_of_ascii c in
  (((48 <=? n) && (n <=? 57)) || (n =? 45))%nat.

Fixpoint all_chars (P : ascii -> bool) (s : string) : bool :=
  match s with
  | EmptyString => true
  | String a r => P a && all_chars P r
  end.

(** A staging directory that already holds a file of another request. *)
Definition w_occupied : World :=
  {| fs := {[ "tmp/1c0ffee1_0.pdf" ]}; trace := [] |}.

Definition two_images : list UploadFile :=
  [upload "a.jpg" 0; upload "b.PNG" 1].

(** Relations between the world before and the world after a run. *)
Definition same_at (p : string) (a b : World) : Prop :=
  p ∈ fs b <-> p ∈ fs a.

Definition fs_shrinks (a b : World) : Prop := fs b ⊆ fs a.

Definition same_remote (a b : World) : Prop :=
  remote_calls (trace b) = remote_calls (trace a).

Definition same_reads (a b : World) : Prop :=
  reads (trace b) = reads (trace a).

(** [R] is a preorder on worlds that holds across the logging of the events
    in [ok] and across the creation and the removal of the paths in
    [okp]. *)
Record tolerates (R : World -> World -> Prop) (ok : Event -> Prop)
    (okp : string -> Prop) : Prop := mkTolerates {
  tol_refl : forall w, R w w;
  tol_trans : forall w1 w2 w3, R w1 w2 -> R w2 w3 -> R w1 w3;
  tol_log : forall e w, ok e -> R w (log e w);
  tol_create : forall p w, okp p -> R w (create p w);
  tol_unlink : forall p w, okp p -> R w (unlink p w)
}.

(** The remote calls one run of the direct path can make, newest first: a
    failed upload; an upload and a failed generation; an upload, a
    generation and the deletion of the uploaded file. *)
Definition remote_session (path : string) (new : list Event) : Prop :=
  new = [EUpload path false]
  \/ (exists n, new = [EGenerate n false; EUpload path true])
  \/ (exists n ok,
        new = [EDeleteRemote n ok; EGenerate n true; EUpload path true]).

(** The clock never goes backwards. *)
Definition monotone_clock (env : Env) : Prop :=
  forall a b, later a b -> (clock env a <= clock env b)%Z.

(** [d] carries a processing time measured between two clock readings taken
    between [lo] and [hi]. *)
Definition timed_in (env : Env) (lo hi : World) (d : dict) : Prop :=
  exists a b,
    later lo a /\ later a b /\ later b hi
    /\ d !! "processing_time" = Some (VTime (clock env b - clock env a)).

Example splitext_pdf : Str.splitext "ticket.PDF" = ("ticket", ".PDF").
Proof. reflexivity. Qed.

Example splitext_dotfile : Str.splitext "dir.d/.pdf" = ("dir.d/.pdf", "").
Proof. reflexivity. Qed.

Example splitext_last_dot : Str.splitext "a.tar.gz" = ("a.tar", ".gz").
Proof. reflexivity. Qed.

Example strip_both : Str.strip (" " ++ Str.nl ++ "a b" ++ Str.nl) = "a b".
Proof. reflexivity. Qed.

Example endswith_fence : Str.endswith "{}```" "```" = true.
Proof. reflexivity. Qed.

Example drop_last_short : Str.drop_last 3 "ab" = "".
Proof. reflexivity. Qed.

Example loads_flight :
  Json.loads ("{" ++ Str.quoted "document_type" ++ ":" ++ Str.quoted "Flight"
              ++ "}")
  = Ok (JObj [("document_type", JStr "Flight")]).
Proof. reflexivity. Qed.

Example loads_nested :
  Json.loads ("{" ++ Str.quoted "a" ++ ": [1, -20, null, true], "
              ++ Str.quoted "a" ++ ": {}}")
  = Ok (JObj [("a", JObj [])]).
Proof. reflexivity. Qed.

Example loads_prose : Json.loads "Here is the JSON" = Fails "Expecting value".
Proof. reflexivity. Qed.

(** ** Facts about the string helpers *)

Module StrFacts.
Import Str.

#[local] Arguments String.append !s1 s2 : simpl nomatch.

Lemma app_assoc (x y z : string) : (x ++ y) ++ z = x ++ (y ++ z).
Proof. induction x as [|c x IH]; simpl; [reflexivity | now rewrite IH]. Qed.

Lemma length_app (x y : string) :
  String.length (x ++ y) = (String.length x + String.length y)%nat.
Proof. induction x as [|c x IH]; simpl; [reflexivity | now rewrite IH]. Qed.

Lemma startswith_app (p s : string) : startswith (p ++ s) p = true.
Proof.
  induction p as [|c p IH]; simpl; [reflexivity |].
  now rewrite Ascii.eqb_refl, IH.
Qed.

Lemma startswith_split (s p : string) :
  startswith s p = true -> s = p ++ drop (String.length p) s.
Proof.
  revert s. induction p as [|c p IH]; intros s H; simpl in *.
  - reflexivity.
  - destruct s as [|a s]; [discriminate |].
    apply andb_prop in H as [Hc Hp].
    apply Ascii.eqb_eq in Hc. subst a. simpl. f_equal. now apply IH.
Qed.

Lemma drop_app (p s : string) : drop (String.length p) (p ++ s) = s.
Proof. induction p as [|c p IH]; simpl; [now destruct s | exact IH]. Qed.

Lemma take_app (x p : string) : take (String.length x) (x ++ p) = x.
Proof.
  induction x as [|c x IH]; simpl; [now destruct p | now rewrite IH].
Qed.






Lemma rstrip_empty (s : string) :
  rstrip s = "" <-> all_space s = true.
Proof.
  induction s as [|c s IH]; simpl; [tauto |].
  destruct (rstrip s) eqn:E.
  - destruct (isspace c); simpl; [| split; discriminate].
    split; intros _; [now apply IH | reflexivity].
  - split; [discriminate |]. intros H.
    apply andb_prop in H as [_ H]. apply IH in H. discriminate.
Qed.

Lemma all_space_lstrip (s : string) : all_space (lstrip s) = all_space s.
Proof.
  induction s as [|c s IH]; simpl; [reflexivity |].
  destruct (isspace c) eqn:E; simpl; [exact IH | now rewrite E].
Qed.

Lemma strip_empty (s : string) : strip s = "" <-> all_space s = true.
Proof. unfold strip. now rewrite rstrip_empty, all_space_lstrip. Qed.







Lemma contains_app (x s needle : string) :
  startswith s needle = true -> contains (x ++ s) needle = true.
Proof.
  intros H. induction x as [|c x IH]; simpl.
  - destruct s; simpl; now rewrite H.
  - rewrite IH. apply orb_true_r.
Qed.

Lemma startswith_refl (s : string) : startswith s s = true.
Proof.
  induction s as [|c s IH]; simpl; [reflexivity |].
  now rewrite Ascii.eqb_refl, IH.
Qed.

Lemma contains_app_r (x s needle : string) :
  contains s needle = true -> contains (x ++ s) needle = true.
Proof.
  intros H. induction x as [|c x IH]; simpl; [exact H |].
  rewrite IH. apply orb_true_r.
Qed.

Lemma contains_head (s rest : string) : contains (s ++ rest) s = true.
Proof.
  destruct s as [|c s]; [now destruct rest |].
  simpl. now rewrite Ascii.eqb_refl, startswith_app.
Qed.

Lemma contains_join (sep e : string) (l : list string) :
  e ∈ l -> contains (join sep l) e = true.
Proof.
  induction l as [| x [| y r] IH]; intros Hin.
  - now apply elem_of_nil in Hin.
  - apply list_elem_of_singleton in Hin as ->. simpl.
    destruct x; simpl; [reflexivity |].
    now rewrite Ascii.eqb_refl, startswith_refl.
  - apply elem_of_cons in Hin as [-> | Hin].
    + apply contains_head.
    + change (join sep (x :: y :: r)) with (x ++ sep ++ join sep (y :: r)).
      apply contains_app_r, contains_app_r, IH, Hin.
Qed.

End StrFacts.

(** ** The response normaliser *)

Section Normalizer.
Import Str StrFacts.










End Normalizer.

(** ** Facts about one file *)

(** Closes a goal whose premise equates two different constructors. *)
Ltac refute_eq := let H := fresh "H" in intros H; discriminate H.

Section FileFacts.

Variable env : Env.

Lemma cleanup_absent (path : string) (w : World) :
  path ∉ fs w ->
  cleanup env path w = (Return tt, log (EExists path false) w).
Proof.
  intros H. unfold cleanup, os_path_exists, bind. simpl.
  now rewrite bool_decide_eq_false_2.
Qed.

Lemma cleanup_removed (path : string) (w : World) :
  path ∈ fs w ->
  os_remove env path (log (EExists path true) w) = Ok tt ->
  cleanup env path w
  = (Return tt,
     log (ERemove path true) (unlink path (log (EExists path true) w))).
Proof.
  intros H Hrm. unfold cleanup, os_path_exists, bind. simpl.
  rewrite bool_decide_eq_true_2 by exact H.
  unfold try_except, os_remove_path, call. now rewrite Hrm.
Qed.

Lemma cleanup_kept (path : string) (w : World) (msg : string) :
  path ∈ fs w ->
  os_remove env path (log (EExists path true) w) = Fails msg ->
  cleanup env path w
  = (Return tt, log (ERemove path false) (log (EExists path true) w)).
Proof.
  intros H Hrm. unfold cleanup, os_path_exists, bind. simpl.
  rewrite bool_decide_eq_true_2 by exact H.
  unfold try_except, os_remove_path, call. now rewrite Hrm.
Qed.

(** The [finally] clause never raises. *)
Lemma cleanup_total (path : string) (w : World) :
  exists w', cleanup env path w = (Return tt, w').
Proof.
  destruct (decide (path ∈ fs w)) as [Hin | Hout].
  - destruct (os_remove env path (log (EExists path true) w)) as [[] | msg]
      eqn:Hrm.
    + eexists. now apply cleanup_removed.
    + eexists. now apply cleanup_kept with msg.
  - eexists. now apply cleanup_absent.
Qed.

(** The scratch copy is there after the [finally] clause exactly when it
    was there before and its removal failed. *)
Lemma cleanup_leftover (path : string) (w w' : World) :
  cleanup env path w = (Return tt, w') ->
  path ∈ fs w' <->
  path ∈ fs w
  /\ exists msg, os_remove env path (log (EExists path true) w) = Fails msg.
Proof.
  intros Hc.
  destruct (decide (path ∈ fs w)) as [Hin | Hout].
  - destruct (os_remove env path (log (EExists path true) w)) as [[] | msg]
      eqn:Hrm.
    + rewrite cleanup_removed in Hc by assumption.
      injection Hc as <-. simpl.
      split; [| intros [_ [m Hm]]; discriminate].
      rewrite elem_of_difference, elem_of_singleton. intros [_ Hne].
      now destruct Hne.
    + rewrite (cleanup_kept _ _ msg) in Hc by assumption.
      injection Hc as <-. simpl. split; eauto.
  - rewrite cleanup_absent in Hc by assumption.
    injection Hc as <-. simpl. tauto.
Qed.

Lemma process_attempt_cases (file : UploadFile) (g : bool)
    (idx start : Z) (file_ext path : string) (w : World) :
  process_attempt env file g idx start file_ext path w =
  match save_upload env file path w with
  | (Raise e, w1) =>
      (Return (error_dict idx (filename file) (str_exn e)), w1)
  | (Return _, w1) =>
      if String.eqb file_ext ".pdf" then
        match gemini_direct env path w1 with
        | (Raise e, w2) =>
            (Return (error_dict idx (filename file)
                       (direct_failed_msg (str_exn e))), w2)
        | (Return data, w2) =>
            (Return (result_dict idx (filename file)
                       (clock env w2 - start) data), log EClock w2)
        end
      else
        (Return (error_dict idx (filename file) (unsupported_msg file_ext)),
         w1)
  end.
Proof.
  unfold process_attempt, try_except, bind.
  destruct (save_upload env file path w) as [[u | e] w1]; [| reflexivity].
  destruct (String.eqb file_ext ".pdf"); [| reflexivity].
  destruct (gemini_direct env path w1) as [[data | e] w2]; reflexivity.
Qed.

Lemma process_single_document_named (file : UploadFile) (g : bool)
    (idx : Z) (w : World) (name : string) :
  filename file = Some name ->
  process_single_document env file g idx w =
  let w1 := log EUuid (log EClock w) in
  let path := temp_path (uuid4 env (log EClock w)) idx (ext_of name) in
  try_finally
    (process_attempt env file g idx (clock env w) (ext_of name) path)
    (cleanup env path) w1.
Proof.
  intros Hn. unfold process_single_document, bind, time_time, uuid_str.
  rewrite Hn. reflexivity.
Qed.

Lemma process_single_document_unnamed (file : UploadFile) (g : bool)
    (idx : Z) (w : World) :
  filename file = None ->
  process_single_document env file g idx w =
  (Raise (Exception "expected str, bytes or os.PathLike object, not NoneType"),
   log EUuid (log EClock w)).
Proof.
  intros Hn. unfold process_single_document, bind, time_time, uuid_str.
  rewrite Hn. reflexivity.
Qed.

(** The value returned is the one the [try] block produced. *)
Lemma try_finally_cleanup {A} (m : M A) (path : string) (w : World)
    (r : Res A) (w1 : World) :
  m w = (r, w1) ->
  exists w', try_finally m (cleanup env path) w = (r, w')
             /\ cleanup env path w1 = (Return tt, w').
Proof.
  intros Hm. destruct (cleanup_total path w1) as [w' Hc].
  exists w'. unfold try_finally. now rewrite Hm, Hc.
Qed.

Lemma process_attempt_total (file : UploadFile) (g : bool)
    (idx start : Z) (file_ext path : string) (w : World) :
  exists d w1,
    process_attempt env file g idx start file_ext path w = (Return d, w1)
    /\ ((exists t data, d = result_dict idx (filename file) t data)
        \/ (exists msg, d = error_dict idx (filename file) msg)).
Proof.
  rewrite process_attempt_cases.
  destruct (save_upload env file path w) as [[u | e] w1].
  2:{ do 2 eexists. split; [reflexivity |]. right. now eexists. }
  destruct (String.eqb file_ext ".pdf").
  2:{ do 2 eexists. split; [reflexivity |]. right. now eexists. }
  destruct (gemini_direct env path w1) as [[data | e] w2];
    do 2 eexists; (split; [reflexivity |]);
    [left; now do 2 eexists | right; now eexists].
Qed.

(** What one call can produce: a [TypeError] for a missing filename,
    otherwise a result or an error dictionary for this index and
    filename. *)
Lemma process_single_document_shape (file : UploadFile) (g : bool)
    (idx : Z) (w : World) :
  exists w',
    (exists e, process_single_document env file g idx w = (Raise e, w'))
    \/ (exists t data,
          process_single_document env file g idx w
          = (Return (result_dict idx (filename file) t data), w'))
    \/ (exists msg,
          process_single_document env file g idx w
          = (Return (error_dict idx (filename file) msg), w')).
Proof.
  destruct (filename file) as [name |] eqn:Hn.
  - rewrite (process_single_document_named _ _ _ _ name Hn). cbv zeta.
    destruct (process_attempt_total file g idx (clock env w) (ext_of name)
                (temp_path (uuid4 env (log EClock w)) idx (ext_of name))
                (log EUuid (log EClock w))) as (d & w1 & Hd & Hshape).
    destruct (try_finally_cleanup _ (temp_path (uuid4 env (log EClock w)) idx
                (ext_of name)) _ _ _ Hd) as (w' & Hf & _).
    exists w'. rewrite Hf, Hn in *.
    destruct Hshape as [(t & data & ->) | (msg & ->)];
      [right; left; now exists t, data | right; right; now exists msg].
  - rewrite process_single_document_unnamed by assumption. eauto.
Qed.

End FileFacts.

(** ** Facts about the batch *)

Lemma result_dict_keys (i : Z) (name : option string) (t : Z) (data : json) :
  result_dict i name t data !! "error" = None
  /\ result_dict i name t data !! "data" = Some (VJson data)
  /\ result_dict i name t data !! "processing_method"
     = Some (VStr "gemini_direct")
  /\ result_dict i name t data !! "file_index" = Some (VInt i)
  /\ result_dict i name t data !! "filename" = Some (py_filename name).
Proof. repeat split; reflexivity. Qed.

Lemma error_entry_keys (i : Z) (name : option string) (err : pyval) :
  error_entry i name err !! "error" = Some err
  /\ error_entry i name err !! "data" = None
  /\ error_entry i name err !! "file_index" = Some (VInt i)
  /\ error_entry i name err !! "filename" = Some (py_filename name).
Proof. repeat split; reflexivity. Qed.

Lemma result_dict_is_result (i : Z) (name : option string) (t : Z)
    (data : json) :
  is_file_result (result_dict i name t data).
Proof.
  destruct (result_dict_keys i name t data) as (He & Hd & Hm & _).
  unfold is_file_result. rewrite He, Hd, Hm. eauto.
Qed.

Lemma error_dict_is_error (i : Z) (name : option string) (msg : string) :
  is_file_error (error_dict i name msg).
Proof.
  destruct (error_entry_keys i name (VStr msg)) as (He & Hd & _).
  unfold is_file_error, error_dict. rewrite He, Hd. eauto.
Qed.

Section BatchFacts.

Variable env : Env.

Lemma process_one_cases (g : bool) (i : nat) (file : UploadFile)
    (res errs : list dict) (w : World) :
  exists w',
    (exists t data,
       process_one env g i file (res, errs) w
       = (Return ((res ++ [result_dict (Z.of_nat i) (filename file) t data])%list,
                  errs), w'))
    \/ (exists msg,
          process_one env g i file (res, errs) w
          = (Return (res,
                     (errs ++ [error_dict (Z.of_nat i) (filename file) msg])%list),
             w')).
Proof.
  destruct (process_single_document_shape env file g (Z.of_nat i) w)
    as (w' & [(e & H) | [(t & data & H) | (msg & H)]]);
    exists w'; unfold process_one, try_except, bind; rewrite H.
  - right. eauto.
  - left. exists t, data.
    now destruct (result_dict_keys (Z.of_nat i) (filename file) t data)
      as (-> & _).
  - right. exists msg. unfold error_dict at 1.
    now destruct (error_entry_keys (Z.of_nat i) (filename file) (VStr msg))
      as (-> & _).
Qed.

(** The loop never raises, and appends one entry per file. *)
Lemma process_files_outcomes (g : bool) (files : list UploadFile) :
  forall (i : nat) (res errs : list dict) (w : World),
  exists R E w',
    process_files env g files i (res, errs) w
    = (Return ((res ++ R)%list, (errs ++ E)%list), w')
    /\ Outcomes i files R E.
Proof.
  induction files as [| f rest IH]; intros i res errs w.
  - exists [], [], w. simpl. rewrite !app_nil_r. split; [reflexivity | constructor].
  - destruct (process_one_cases g i f res errs w)
      as (w1 & [(t & data & H1) | (msg & H1)]).
    + destruct (IH (S i) (res ++ [result_dict (Z.of_nat i) (filename f) t data])%list
                  errs w1) as (R & E & w' & Hrest & Hout).
      exists (result_dict (Z.of_nat i) (filename f) t data :: R), E, w'.
      split; [| now constructor].
      cbn [process_files]. unfold bind at 1. rewrite H1, Hrest.
      now rewrite <- app_assoc.
    + destruct (IH (S i) res
                  (errs ++ [error_dict (Z.of_nat i) (filename f) msg])%list w1)
        as (R & E & w' & Hrest & Hout).
      exists R, (error_dict (Z.of_nat i) (filename f) msg :: E), w'.
      split; [| now constructor].
      cbn [process_files]. unfold bind at 1. rewrite H1, Hrest.
      now rewrite <- app_assoc.
Qed.

End BatchFacts.

(** ** What the appended entries look like *)

Lemma entry_of_shift (i : nat) (f : UploadFile) (rest : list UploadFile)
    (d : dict) (k : nat) :
  entry_of (S i) rest d k -> entry_of i (f :: rest) d k.
Proof.
  intros (Hle & f' & Hf & Hidx & Hname). split; [lia |].
  exists f'. split; [| now split].
  replace (k - i)%nat with (S (k - S i)) by lia. exact Hf.
Qed.

Lemma entry_of_head (i : nat) (f : UploadFile) (rest : list UploadFile)
    (d : dict) :
  d !! "file_index" = Some (VInt (Z.of_nat i)) ->
  d !! "filename" = Some (py_filename (filename f)) ->
  entry_of i (f :: rest) d i.
Proof.
  intros Hidx Hname. split; [lia |]. exists f.
  rewrite Nat.sub_diag. now repeat split.
Qed.

Lemma Outcomes_length (i : nat) (files : list UploadFile) (R E : list dict) :
  Outcomes i files R E ->
  (List.length R + List.length E = List.length files)%nat.
Proof. induction 1; simpl; lia. Qed.

Lemma Outcomes_kinds (i : nat) (files : list UploadFile) (R E : list dict) :
  Outcomes i files R E ->
  Forall is_file_result R /\ Forall is_file_error E.
Proof.
  induction 1 as [| i f rest t data R E _ [IHR IHE]
                  | i f rest msg R E _ [IHR IHE]].
  - split; constructor.
  - split; [constructor |]; auto using result_dict_is_result.
  - split; [| constructor]; auto using error_dict_is_error.
Qed.

(** Each list carries strictly increasing indices; together the indices are
    those of the enumeration, each once. *)
Lemma Outcomes_entries (i : nat) (files : list UploadFile) (R E : list dict) :
  Outcomes i files R E ->
  exists kr ke : list nat,
    Forall2 (entry_of i files) R kr
    /\ Forall2 (entry_of i files) E ke
    /\ StronglySorted lt kr /\ StronglySorted lt ke
    /\ Forall (le i) kr /\ Forall (le i) ke
    /\ (kr ++ ke)%list ≡ₚ seq i (List.length files).
Proof.
  induction 1 as [| i f rest t data R E _ IH | i f rest msg R E _ IH].
  - exists [], []. repeat split; constructor.
  - destruct IH as (kr & ke & HR & HE & SR & SE & LR & LE & HP).
    destruct (result_dict_keys (Z.of_nat i) (filename f) t data)
      as (_ & _ & _ & Hidx & Hname).
    exists (i :: kr), ke. repeat split.
    + constructor; [now apply entry_of_head |].
      eapply Forall2_impl; [exact HR |]. intros; now apply entry_of_shift.
    + eapply Forall2_impl; [exact HE |]. intros; now apply entry_of_shift.
    + constructor; [exact SR |].
      eapply Forall_impl; [exact LR |]. intros; simpl in *; lia.
    + exact SE.
    + constructor; [lia |].
      eapply Forall_impl; [exact LR |]. intros; simpl in *; lia.
    + eapply Forall_impl; [exact LE |]. intros; simpl in *; lia.
    + simpl. now constructor.
  - destruct IH as (kr & ke & HR & HE & SR & SE & LR & LE & HP).
    destruct (error_entry_keys (Z.of_nat i) (filename f) (VStr msg))
      as (_ & _ & Hidx & Hname).
    exists kr, (i :: ke). repeat split.
    + eapply Forall2_impl; [exact HR |]. intros; now apply entry_of_shift.
    + constructor; [now apply entry_of_head |].
      eapply Forall2_impl; [exact HE |]. intros; now apply entry_of_shift.
    + exact SR.
    + constructor; [exact SE |].
      eapply Forall_impl; [exact LE |]. intros; simpl in *; lia.
    + eapply Forall_impl; [exact LR |]. intros; simpl in *; lia.
    + constructor; [lia |].
      eapply Forall_impl; [exact LE |]. intros; simpl in *; lia.
    + simpl. rewrite <- Permutation_middle. now constructor.
Qed.

(** ** Facts about validation *)

Lemma is_valid_blank (f : UploadFile) :
  is_valid f = negb (blank (filename f)).
Proof.
  unfold is_valid, blank. destruct (filename f) as [s |]; [| reflexivity].
  simpl. destruct (Str.strip s) eqn:Hs.
  - apply StrFacts.strip_empty in Hs. rewrite Hs. apply andb_false_r.
  - destruct (Str.all_space s) eqn:Ha.
    + apply StrFacts.strip_empty in Ha. congruence.
    + destruct s; [discriminate | reflexivity].
Qed.

Lemma filter_valid_Forall (files : list UploadFile) :
  Forall (fun f => is_valid f = true) (List.filter is_valid files).
Proof.
  induction files as [| f rest IH]; simpl; [constructor |].
  destruct (is_valid f) eqn:Hf; [constructor |]; assumption.
Qed.

Lemma filter_valid_nil (files : list UploadFile) :
  List.filter is_valid files = [] <->
  Forall (fun f => blank (filename f) = true) files.
Proof.
  induction files as [| f rest IH]; simpl.
  - split; [constructor | reflexivity].
  - rewrite is_valid_blank. destruct (blank (filename f)) eqn:Hb; simpl.
    + rewrite IH. split; [now constructor | now inversion 1].
    + split; [discriminate |]. inversion 1; congruence.
Qed.

Lemma all_unnamed_blank (files : list UploadFile) :
  all_unnamed files = true ->
  Forall (fun f => blank (filename f) = true) files.
Proof.
  induction files as [| f rest IH]; simpl; [constructor |].
  intros H. apply andb_prop in H as [Hf Hrest].
  constructor; [| now apply IH].
  unfold blank. destruct (filename f) as [[|c s] |]; simpl in *;
    [reflexivity | discriminate | reflexivity].
Qed.

Section ValidateFacts.

Variable env : Env.

Lemma check_extensions_find (valid : list UploadFile) (w : World) :
  Forall (fun f => is_valid f = true) valid ->
  check_extensions env valid w =
  match List.find offending valid with
  | Some f =>
      (Raise (HTTPException 400
                (unsupported_detail (set_order env) (file_ext_of f))), w)
  | None => (Return tt, w)
  end.
Proof.
  induction 1 as [| f rest Hf _ IH]; [reflexivity |].
  destruct f as [[name |] s]; [| discriminate].
  cbn [check_extensions List.find filename]. unfold offending at 1.
  unfold bind, str_arg, ret. cbn [file_ext_of filename].
  destruct (bool_decide (ext_of name ∈ allowed_extensions)) eqn:Hd;
    [exact IH | reflexivity].
Qed.

Lemma validate_cases (files : list UploadFile) (w : World) :
  validate env files w =
  if match files with [] => true | _ => false end || all_unnamed files then
    (Raise (HTTPException 400 "No valid files uploaded"), w)
  else
    match List.filter is_valid files with
    | [] => (Raise (HTTPException 400 "No valid files to process"), w)
    | valid =>
        match List.find offending valid with
        | Some f =>
            (Raise (HTTPException 400
                      (unsupported_detail (set_order env) (file_ext_of f))),
             w)
        | None => (Return valid, w)
        end
    end.
Proof.
  unfold validate.
  destruct (match files with [] => true | _ => false end || all_unnamed files);
    [reflexivity |].
  pose proof (filter_valid_Forall files) as Hv.
  destruct (List.filter is_valid files) as [| f valid] eqn:Hfil; [reflexivity |].
  unfold bind. rewrite check_extensions_find by exact Hv.
  destruct (List.find offending (f :: valid)); reflexivity.
Qed.

Lemma JSONResponse_rendered (content : BatchSummary) (w : World) :
  JSONResponse env content w = (rendered env content, w).
Proof.
  unfold JSONResponse, rendered, bind, of_outcome.
  now destruct (render env content).
Qed.

Lemma rendered_Return (content s : BatchSummary) :
  rendered env content = Return s -> s = content /\ render env content = Ok tt.
Proof.
  unfold rendered. destruct (render env content) as [[] | msg];
    [| refute_eq].
  intros H. injection H as <-. now split.
Qed.

Lemma rendered_Raise (content : BatchSummary) (e : exn) :
  rendered env content = Raise e ->
  exists msg, e = Exception msg /\ render env content = Fails msg.
Proof.
  unfold rendered. destruct (render env content) as [[] | msg];
    [refute_eq |].
  intros H. injection H as <-. now exists msg.
Qed.

(** [scan_documents] is validation, then the loop, then the rendering of
    the summary. *)
Lemma scan_documents_cases (files : list UploadFile) (g : bool) (w : World) :
  scan_documents env files g w =
  match validate env files (log EClock w) with
  | (Raise e, w1) => (Raise e, w1)
  | (Return valid_files, w1) =>
      match process_files env g valid_files 0 ([], []) w1 with
      | (Raise e, w2) => (Raise e, w2)
      | (Return (results, errors), w2) =>
          (rendered env
             {| total_files := List.length valid_files;
                successful_extractions := List.length results;
                failed_extractions := List.length errors;
                total_processing_time := clock env w2 - clock env w;
                results := results;
                errors := match errors with
                          | [] => None
                          | _ => Some errors
                          end |},
           log EClock w2)
      end
  end.
Proof.
  unfold scan_documents, bind, time_time.
  destruct (validate env files (log EClock w)) as [[valid | e] w1];
    [| reflexivity].
  destruct (process_files env g valid 0 ([], []) w1) as [[[R E] | e] w2];
    [| reflexivity].
  cbv zeta. apply JSONResponse_rendered.
Qed.

End ValidateFacts.

(** ** The accepted batch *)

Lemma errors_key (E : list dict) :
  default [] (match E with [] => None | _ => Some E end) = E.
Proof. now destruct E. Qed.

Lemma filter_valid_sublist (files : list UploadFile) :
  List.filter is_valid files `sublist_of` files.
Proof.
  induction files as [| f rest IH]; simpl; [apply sublist_nil |].
  destruct (is_valid f); [apply sublist_skip | apply sublist_cons]; exact IH.
Qed.

Section Accepted.

Variable env : Env.

Lemma validate_accepts (files : list UploadFile) (w w1 : World)
    (valid : list UploadFile) :
  validate env files w = (Return valid, w1) ->
  valid = List.filter is_valid files /\ valid <> [] /\ w1 = w
  /\ List.find offending valid = None.
Proof.
  rewrite validate_cases.
  destruct (match files with [] => true | _ => false end || all_unnamed files);
    [refute_eq |].
  destruct (List.filter is_valid files) as [| f rest]; [refute_eq |].
  cbv zeta.
  destruct (List.find offending (f :: rest)) eqn:Hfind; [refute_eq |].
  intros H. injection H as <- <-. now repeat split.
Qed.

(** Once validation has passed, the loop runs to its end and
    [scan_documents] hands the summary built from its entries to
    [JSONResponse]. *)
Lemma scan_documents_accepted (files : list UploadFile) (g : bool)
    (w w1 : World) (valid : list UploadFile) :
  validate env files (log EClock w) = (Return valid, w1) ->
  exists (R E : list dict) (w2 : World),
    scan_documents env files g w
    = (rendered env
         {| total_files := List.length valid;
            successful_extractions := List.length R;
            failed_extractions := List.length E;
            total_processing_time := clock env w2 - clock env w;
            results := R;
            errors := match E with [] => None | _ => Some E end |},
       log EClock w2)
    /\ Outcomes 0 valid R E.
Proof.
  intros Hv. rewrite scan_documents_cases, Hv.
  destruct (process_files_outcomes env g valid 0 [] [] w1)
    as (R & E & w2 & Hrun & Hout).
  rewrite Hrun. do 3 eexists. split; [reflexivity | exact Hout].
Qed.

End Accepted.

(** ** The claims *)

(** C1.  For every batch that passes validation, the loop of
    [scan_documents] ends with a summary [s] in which every file index of
    [0, total_files) is carried by exactly one entry, a FileResult in
    [results] or a FileError in [errors] (no index twice, none missing),
    and [successful_extractions + failed_extractions = total_files], the
    two counters being the lengths of [results] and [errors].  This [s] is
    the content handed to [JSONResponse]: [scan_documents] returns [s] when
    [s] renders and raises the exception of the rendering otherwise, so the
    summary that is returned, whenever one is, is [s]. *)
Theorem scan_partitions_indices (env : Env) (files : list UploadFile)
    (g : bool) (w w1 : World) (valid : list UploadFile) :
  validate env files (log EClock w) = (Return valid, w1) ->
  exists (s : BatchSummary) (w' : World) (kr ke : list nat),
    scan_documents env files g w = (rendered env s, w')
    /\ (forall s' w'',
          scan_documents env files g w = (Return s', w'') ->
          s' = s /\ render env s = Ok tt)
    /\ (render env s = Ok tt -> scan_documents env files g w = (Return s, w'))
    /\ valid <> []
    /\ total_files s = List.length valid
    /\ successful_extractions s = List.length (results s)
    /\ failed_extractions s = List.length (errors_of s)
    /\ (successful_extractions s + failed_extractions s = total_files s)%nat
    /\ Forall2 (entry_of 0 valid) (results s) kr
    /\ Forall2 (entry_of 0 valid) (errors_of s) ke
    /\ Forall is_file_result (results s)
    /\ Forall is_file_error (errors_of s)
    /\ (kr ++ ke)%list ≡ₚ seq 0 (total_files s)
    /\ NoDup (kr ++ ke)%list.
Proof.
  intros Hv.
  destruct (scan_documents_accepted env files g w w1 valid Hv)
    as (R & E & w2 & Hscan & Hout).
  destruct (validate_accepts env _ _ _ _ Hv) as (_ & Hne & _).
  destruct (Outcomes_entries _ _ _ _ Hout)
    as (kr & ke & HR & HE & _ & _ & _ & _ & HP).
  destruct (Outcomes_kinds _ _ _ _ Hout) as [KR KE].
  pose proof (Outcomes_length _ _ _ _ Hout) as Hlen.
  eexists _, _, kr, ke. split; [exact Hscan |].
  split.
  { intros s' w'' Hret. rewrite Hscan in Hret. injection Hret as Hret _.
    exact (rendered_Return env _ _ Hret). }
  split.
  { intros Hok. rewrite Hscan. unfold rendered. now rewrite Hok. }
  unfold errors_of. cbn [total_files successful_extractions
    failed_extractions results errors]. rewrite errors_key.
  repeat split; try assumption.
  rewrite HP. apply NoDup_seq.
Qed.

(** C6.  The flag [gemini_only] is inert: with the same files, the same
    environment and the same initial world, [scan_documents] and
    [process_single_document] compute the same outcome and the same final
    world for [true] and for [false]. *)
Theorem gemini_only_inert (env : Env) (files : list UploadFile) (w : World) :
  scan_documents env files true w = scan_documents env files false w
  /\ (forall (file : UploadFile) (idx : Z) (w0 : World),
        process_single_document env file true idx w0
        = process_single_document env file false idx w0)
  /\ (forall (valid : list UploadFile) (i : nat) (acc : list dict * list dict)
        (w0 : World),
        process_files env true valid i acc w0
        = process_files env false valid i acc w0).
Proof.
  assert (Hloop : forall valid i acc w0,
             process_files env true valid i acc w0
             = process_files env false valid i acc w0).
  { induction valid as [| f rest IH]; intros i acc w0; [reflexivity |].
    cbn [process_files]. unfold bind.
    change (process_one env true i f acc w0)
      with (process_one env false i f acc w0).
    destruct (process_one env false i f acc w0) as [[acc' | e] w1];
      [apply IH | reflexivity]. }
  split; [| split; [reflexivity | exact Hloop]].
  rewrite !scan_documents_cases.
  destruct (validate env files (log EClock w)) as [[valid | e] w1];
    [| reflexivity].
  now rewrite Hloop.
Qed.


Section RemoteFacts.

Variable env : Env.

Lemma gemini_direct_parsed (path : string) (w : World) (rname : string)
    (r : Response) (raw : string) :
  upload_file env path "application/pdf" w = Ok rname ->
  generate_content env "gemini-2.5-flash" rname get_extraction_prompt
    (log (EUpload path true) w) = Ok r ->
  delete_file env rname (answered path rname w) = Ok tt ->
  text r = Ok raw ->
  gemini_direct env path w
  = (match json_loads env (normalize_response raw) with
     | Ok data => Return data
     | Fails msg => Raise (Exception msg)
     end,
     log (EDeleteRemote rname true) (answered path rname w)).
Proof.
  intros Hup Hgen Hdel Htext.
  unfold gemini_direct, bind, genai_upload_file, genai_generate_content,
    genai_delete_file, call, answered in *.
  rewrite Hup. cbn [id]. rewrite Hgen. cbn [id]. rewrite Hdel, Htext. cbn.
  now destruct (json_loads env (normalize_response raw)).
Qed.

Lemma gemini_direct_delete_failed (path : string) (w : World)
    (rname : string) (r : Response) (msg : string) :
  upload_file env path "application/pdf" w = Ok rname ->
  generate_content env "gemini-2.5-flash" rname get_extraction_prompt
    (log (EUpload path true) w) = Ok r ->
  delete_file env rname (answered path rname w) = Fails msg ->
  gemini_direct env path w
  = (Raise (Exception msg),
     log (EDeleteRemote rname false) (answered path rname w)).
Proof.
  intros Hup Hgen Hdel.
  unfold gemini_direct, bind, genai_upload_file, genai_generate_content,
    genai_delete_file, call, answered in *.
  rewrite Hup. cbn [id]. rewrite Hgen. cbn [id]. now rewrite Hdel.
Qed.

End RemoteFacts.


(** C8 (amended).  After validation the files whose filename is blank
    (missing, empty, or made of whitespace only) are gone from the list that
    is processed, and only they: they are neither counted in [total_files]
    nor reported.  The files that remain keep their relative order and are
    numbered 0..n-1 in that order, and in [results] and in [errors] of the
    summary handed to [JSONResponse] the entries appear by increasing
    [file_index], each entry carrying the filename of the file at its
    index.  [scan_documents] returns that summary when it renders. *)
Theorem scan_keeps_input_order (env : Env) (files : list UploadFile)
    (g : bool) (w w1 : World) (valid : list UploadFile) :
  validate env files (log EClock w) = (Return valid, w1) ->
  valid = List.filter (fun f => negb (blank (filename f))) files
  /\ valid `sublist_of` files
  /\ (forall f, f ∈ valid <-> f ∈ files /\ blank (filename f) = false)
  /\ (forall f, unnamed f -> f ∉ valid)
  /\ exists (s : BatchSummary) (w' : World) (kr ke : list nat),
       scan_documents env files g w = (rendered env s, w')
       /\ (forall s' w'',
             scan_documents env files g w = (Return s', w'') -> s' = s)
       /\ (render env s = Ok tt ->
           scan_documents env files g w = (Return s, w'))
       /\ total_files s = List.length valid
       /\ Forall2 (entry_of 0 valid) (results s) kr
       /\ Forall2 (entry_of 0 valid) (errors_of s) ke
       /\ StronglySorted lt kr
       /\ StronglySorted lt ke
       /\ (kr ++ ke)%list ≡ₚ seq 0 (List.length valid).
Proof.
  intros Hv.
  destruct (validate_accepts env _ _ _ _ Hv) as (Hfil & _ & _ & _).
  split; [| split; [| split; [| split]]].
  - rewrite Hfil. apply filter_ext. intros f. apply is_valid_blank.
  - rewrite Hfil. apply filter_valid_sublist.
  - intros f. rewrite Hfil, !list_elem_of_In, filter_In, is_valid_blank.
    now rewrite negb_true_iff.
  - intros f Hun Hin. rewrite Hfil in Hin.
    apply list_elem_of_In, filter_In in Hin as [_ Hvalid].
    unfold is_valid in Hvalid. destruct Hun as [Hf | Hf]; rewrite Hf in Hvalid;
      discriminate Hvalid.
  - destruct (scan_documents_accepted env files g w w1 valid Hv)
      as (R & E & w2 & Hscan & Hout).
    destruct (Outcomes_entries _ _ _ _ Hout)
      as (kr & ke & HR & HE & SR & SE & _ & _ & HP).
    eexists _, _, kr, ke. split; [exact Hscan |].
    split.
    { intros s' w'' Hret. rewrite Hscan in Hret. injection Hret as Hret _.
      exact (proj1 (rendered_Return env _ _ Hret)). }
    split.
    { intros Hok. rewrite Hscan. unfold rendered. now rewrite Hok. }
    unfold errors_of. cbn [total_files results errors]. rewrite errors_key.
    now repeat split.
Qed.

(** The summary of two PDFs of which the second fails remotely: index 0 in
    [results], index 1 in [errors]. *)
Lemma scan_partitions_indices_witness :
  validate (scripted second_upload_fails) two_pdfs (log EClock w0)
  = (Return two_pdfs, log EClock w0)
  /\ exists s w',
       scan_documents (scripted second_upload_fails) two_pdfs false w0
       = (Return s, w')
       /\ (successful_extractions s + failed_extractions s = total_files s)%nat
       /\ total_files s = 2%nat.
Proof.
  split; [reflexivity |].
  destruct (scan_partitions_indices (scripted second_upload_fails) two_pdfs
              false w0 (log EClock w0) two_pdfs eq_refl)
    as (s & w' & kr & ke & Hs & Hret & _ & _ & Ht & _ & _ & Hsum & _).
  assert (Hr : exists s0,
             fst (scan_documents (scripted second_upload_fails) two_pdfs
                    false w0) = Return s0)
    by (vm_compute; eexists; reflexivity).
  destruct Hr as [s0 Hr]. rewrite Hs in Hr. cbn [fst] in Hr.
  exists s, w'. rewrite Hs, Hr.
  destruct (rendered_Return _ _ _ Hr) as [-> _]. auto.
Defined.



Lemma scan_keeps_input_order_witness :
  validate (scripted all_ok) with_unnamed (log EClock w0)
  = (Return [upload "b.pdf" 0; upload "a.pdf" 2], log EClock w0)
  /\ exists s w',
       scan_documents (scripted all_ok) with_unnamed false w0 = (Return s, w')
       /\ total_files s = 2%nat.
Proof.
  split; [reflexivity |].
  destruct (scan_keeps_input_order (scripted all_ok) with_unnamed false w0
              (log EClock w0) [upload "b.pdf" 0; upload "a.pdf" 2] eq_refl)
    as (_ & _ & _ & _ & s & w' & kr & ke & Hs & _ & _ & Ht & _).
  assert (Hr : exists s0,
             fst (scan_documents (scripted all_ok) with_unnamed false w0)
             = Return s0)
    by (vm_compute; eexists; reflexivity).
  destruct Hr as [s0 Hr]. rewrite Hs in Hr. cbn [fst] in Hr.
  exists s, w'. rewrite Hs, Hr.
  destruct (rendered_Return _ _ _ Hr) as [-> _]. auto.
Defined.

(** C8 as worded fails: the upload named with one space has a filename that
    is not empty, yet it is dropped; of the three files two are counted and
    [b.pdf] is numbered 1. *)
Lemma space_name_dropped :
  ~ drops_only_unnamed (scripted all_ok) with_space false w0.
Proof.
  intros H.
  destruct (scan_documents (scripted all_ok) with_space false w0) as [r w']
    eqn:Hscan.
  assert (Hr : exists s, r = Return s /\ total_files s = 2%nat).
  { apply (f_equal fst) in Hscan. cbn [fst] in Hscan. rewrite <- Hscan.
    vm_compute. eexists. split; reflexivity. }
  destruct Hr as (s & -> & Ht).
  specialize (H s w' Hscan). rewrite Ht in H. discriminate H.
Qed.

(** ** Batch validation *)

Lemma unsupported_detail_head (order : list string) (file_ext : string) :
  exists rest, unsupported_detail order file_ext = String "U" rest.
Proof. eexists. reflexivity. Qed.

Lemma unsupported_not_empty_batch (order : list string) (file_ext : string) :
  ~ empty_batch (HTTPException 400 (unsupported_detail order file_ext)).
Proof.
  destruct (unsupported_detail_head order file_ext) as [rest ->].
  intros [H | H]; discriminate H.
Qed.

Lemma all_unnamed_iff (files : list UploadFile) :
  all_unnamed files = true <-> Forall unnamed files.
Proof.
  induction files as [| f rest IH]; simpl.
  - split; [constructor | reflexivity].
  - rewrite andb_true_iff, IH, Forall_cons. apply and_iff_compat_r.
    unfold unnamed. destruct (filename f) as [[| c s] |]; simpl;
      split; intros H; auto; try discriminate H;
      destruct H as [H | H]; discriminate H.
Qed.

Lemma valid_file_named (files : list UploadFile) (f : UploadFile) :
  In f (List.filter is_valid files) ->
  (match files with [] => true | _ => false end || all_unnamed files) = false.
Proof.
  intros Hin. apply filter_In in Hin as [Hin Hvalid].
  destruct files as [| f0 rest]; [destruct Hin |]. cbn [orb].
  destruct (all_unnamed (f0 :: rest)) eqn:Hall; [| reflexivity].
  apply all_unnamed_blank in Hall. rewrite List.Forall_forall in Hall.
  specialize (Hall f Hin). rewrite is_valid_blank, Hall in Hvalid.
  discriminate Hvalid.
Qed.

Lemma allowed_extensions_elements (e : string) :
  e ∈ allowed_extensions <-> e ∈ [".pdf"; ".jpg"; ".jpeg"; ".png"].
Proof.
  unfold allowed_extensions.
  rewrite !elem_of_union, !elem_of_singleton, !elem_of_cons, elem_of_nil.
  tauto.
Qed.

(** C3 (amended).  If, among the files that are kept (those whose filename
    is not blank), some file has an extension outside
    [{.pdf, .jpg, .jpeg, .png}] (compared in lower case), then
    [scan_documents] fails the whole call with status 400 and the detail
    [Unsupported file type: <ext>. Allowed: <list>], where [<ext>] is the
    extension of the first such file and [<list>] enumerates the allowed
    set.  Nothing has happened by then but the reading of the clock: no
    upload has been read and no scratch file created.  A file with a blank
    filename is dropped before the check and does not make the call
    fail. *)
Theorem unsupported_type_rejected (env : Env) (files : list UploadFile)
    (g : bool) (w : World) (f : UploadFile) :
  List.find offending (List.filter is_valid files) = Some f ->
  set_order env ≡ₚ [".pdf"; ".jpg"; ".jpeg"; ".png"] ->
  let detail := unsupported_detail (set_order env) (file_ext_of f) in
  scan_documents env files g w
  = (Raise (HTTPException 400 detail), log EClock w)
  /\ (f ∈ files) /\ is_valid f = true
  /\ (file_ext_of f ∉ allowed_extensions)
  /\ Str.contains detail (file_ext_of f) = true
  /\ (forall e, e ∈ allowed_extensions -> Str.contains detail e = true)
  /\ fs (log EClock w) = fs w
  /\ trace (log EClock w) = EClock :: trace w.
Proof.
  intros Hfind Horder detail.
  pose proof (find_some _ _ Hfind) as [Hin Hoff].
  pose proof (valid_file_named _ _ Hin) as Hnamed.
  pose proof Hin as Hin'. apply filter_In in Hin' as [Hfiles Hvalid].
  split; [| split; [| split; [| split; [| split; [| split]]]]].
  - rewrite scan_documents_cases, validate_cases, Hnamed.
    destruct (List.filter is_valid files) as [| f0 rest];
      [destruct Hin |].
    cbv zeta. now rewrite Hfind.
  - now apply list_elem_of_In.
  - exact Hvalid.
  - unfold offending in Hoff. apply negb_true_iff in Hoff.
    now apply bool_decide_eq_false_1 in Hoff.
  - unfold detail, unsupported_detail.
    apply (StrFacts.contains_app_r "Unsupported file type: ").
    apply StrFacts.contains_head.
  - intros e He. unfold detail, unsupported_detail.
    apply (StrFacts.contains_app_r "Unsupported file type: ").
    apply StrFacts.contains_app_r, StrFacts.contains_app_r.
    apply StrFacts.contains_join. rewrite Horder.
    now apply allowed_extensions_elements.
  - split; reflexivity.
Qed.

Lemma unsupported_type_rejected_witness :
  List.find offending
    (List.filter is_valid [upload "a.pdf" 0; upload "b.txt" 1])
  = Some (upload "b.txt" 1)
  /\ set_order (scripted all_ok) ≡ₚ [".pdf"; ".jpg"; ".jpeg"; ".png"]
  /\ scan_documents (scripted all_ok) [upload "a.pdf" 0; upload "b.txt" 1]
       false w0
     = (Raise (HTTPException 400
                 "Unsupported file type: .txt. Allowed: .jpg, .pdf, .jpeg, .png"),
        log EClock w0).
Proof.
  split; [reflexivity |]. split; [apply perm_swap |].
  apply (unsupported_type_rejected (scripted all_ok)
           [upload "a.pdf" 0; upload "b.txt" 1] false w0 (upload "b.txt" 1)
           eq_refl (perm_swap _ _ _)).
Defined.

(** C3 as worded fails: the upload whose filename is empty has an empty
    extension, which is not allowed, yet the batch is processed. *)
Lemma unnamed_upload_not_rejected :
  ~ rejects_every_unsupported (scripted all_ok) with_unnamed false w0.
Proof.
  intros H. destruct H as (ext & w' & H).
  - exists (upload "" 1). split.
    + apply list_elem_of_lookup. now exists 1%nat.
    + now apply (bool_decide_eq_false_1 _).
  - destruct (scan_documents_accepted (scripted all_ok) with_unnamed false w0
                (log EClock w0) [upload "b.pdf" 0; upload "a.pdf" 2] eq_refl)
      as (R & E & w2 & Hscan & _).
    rewrite Hscan in H. injection H as H _.
    apply rendered_Raise in H as (msg & H & _). discriminate H.
Qed.

(** C10 (amended).  [scan_documents] fails the whole call as an empty batch
    exactly when every filename of the list is blank: missing, empty, or
    made of whitespace only (an empty list included).  The detail is
    [No valid files uploaded] when the list is empty or every filename is
    empty or missing, and [No valid files to process] otherwise; the status
    is 400 and nothing has happened but the reading of the clock. *)
Theorem empty_batch_iff_blank (env : Env) (files : list UploadFile)
    (g : bool) (w : World) :
  ((exists e w', scan_documents env files g w = (Raise e, w') /\ empty_batch e)
   <-> Forall (fun f => blank (filename f) = true) files)
  /\ (Forall (fun f => blank (filename f) = true) files ->
      scan_documents env files g w
      = (Raise (HTTPException 400
                  (if match files with [] => true | _ => false end
                      || all_unnamed files
                   then "No valid files uploaded"
                   else "No valid files to process")),
         log EClock w))
  /\ ((match files with [] => true | _ => false end || all_unnamed files)
      = true
      <-> Forall unnamed files).
Proof.
  assert (Hblank : Forall (fun f => blank (filename f) = true) files ->
            scan_documents env files g w
            = (Raise (HTTPException 400
                        (if match files with [] => true | _ => false end
                            || all_unnamed files
                         then "No valid files uploaded"
                         else "No valid files to process")),
               log EClock w)).
  { intros Hall. apply filter_valid_nil in Hall.
    rewrite scan_documents_cases, validate_cases, Hall.
    now destruct (match files with [] => true | _ => false end
                  || all_unnamed files). }
  split; [split |split; [exact Hblank |]].
  - intros (e & w' & Hscan & Hempty). revert Hscan.
    rewrite scan_documents_cases, validate_cases.
    destruct (match files with [] => true | _ => false end
              || all_unnamed files) eqn:Hfirst.
    { intros _. apply orb_prop in Hfirst as [Hnil | Hall].
      - destruct files; [constructor | discriminate Hnil].
      - now apply all_unnamed_blank. }
    destruct (List.filter is_valid files) as [| f0 rest] eqn:Hfil.
    { intros _. now apply filter_valid_nil. }
    cbv zeta. destruct (List.find offending (f0 :: rest)) as [f |].
    + intros Hscan. injection Hscan as <- _.
      now apply unsupported_not_empty_batch in Hempty.
    + destruct (process_files_outcomes env g (f0 :: rest) 0 [] []
                  (log EClock w)) as (R & E & w2 & Hrun & _).
      rewrite Hrun. intros Hscan. injection Hscan as Hscan _.
      apply rendered_Raise in Hscan as (msg & -> & _).
      destruct Hempty as [H | H]; discriminate H.
  - intros Hall. rewrite (Hblank Hall). do 2 eexists. split; [reflexivity |].
    unfold empty_batch.
    destruct (match files with [] => true | _ => false end
              || all_unnamed files); auto.
  - rewrite <- all_unnamed_iff. destruct files; simpl; [tauto |].
    reflexivity.
Qed.

(** C10 as worded fails: one upload named with a single space is refused as
    an empty batch, although the list is not empty and the filename is
    neither empty nor missing. *)
Lemma whitespace_name_is_empty_batch :
  ~ empty_batch_as_worded (scripted all_ok) [upload " " 0] false w0.
Proof.
  intros [Hto _]. destruct Hto as [Hnil | Hall].
  - exists (HTTPException 400 "No valid files to process"), (log EClock w0).
    split; [reflexivity | now right].
  - discriminate Hnil.
  - apply Forall_cons in Hall as [[Hf | Hf] _]; discriminate Hf.
Qed.

(** ** One file, seen from the caller *)

Lemma error_dict_msg (i i' : Z) (n n' : option string) (m m' : string) :
  error_dict i n m = error_dict i' n' m' -> m = m'.
Proof.
  intros H. apply (f_equal (fun d : dict => d !! "error")) in H.
  unfold error_dict in H.
  destruct (error_entry_keys i n (VStr m)) as (E1 & _).
  destruct (error_entry_keys i' n' (VStr m')) as (E2 & _).
  rewrite E1, E2 in H. now injection H.
Qed.

Lemma error_dict_not_result (i i' : Z) (n n' : option string) (m : string)
    (t : Z) (data : json) :
  error_dict i n m <> result_dict i' n' t data.
Proof.
  intros H. apply (f_equal (fun d : dict => d !! "error")) in H.
  unfold error_dict in H.
  destruct (error_entry_keys i n (VStr m)) as (E1 & _).
  destruct (result_dict_keys i' n' t data) as (E2 & _).
  rewrite E1, E2 in H. discriminate H.
Qed.

Lemma Return_error_msg (i i' : Z) (n n' : option string) (m m' : string) :
  @Return dict (error_dict i n m) = Return (error_dict i' n' m') -> m = m'.
Proof.
  intros H. apply (f_equal returned) in H. now apply error_dict_msg in H.
Qed.

Lemma Return_error_not_result (i i' : Z) (n n' : option string) (m : string)
    (t : Z) (data : json) :
  @Return dict (error_dict i n m) <> Return (result_dict i' n' t data).
Proof.
  intros H. apply (f_equal returned) in H.
  now apply error_dict_not_result in H.
Qed.

Section CallerFacts.

Variable env : Env.

(** A named file: the call returns what the [try] block returned, in the
    world left by the [finally] clause. *)
Lemma process_single_document_result (file : UploadFile) (g : bool)
    (idx : Z) (w : World) (name : string) :
  filename file = Some name ->
  exists (d : dict) (w2 w' : World),
    process_attempt env file g idx (clock env w) (ext_of name)
      (scratch_path env file idx w) (entered w) = (Return d, w2)
    /\ cleanup env (scratch_path env file idx w) w2 = (Return tt, w')
    /\ process_single_document env file g idx w = (Return d, w').
Proof.
  intros Hn.
  rewrite (process_single_document_named env file g idx w name Hn).
  unfold scratch_path, file_ext_of, entered. rewrite Hn. cbv zeta.
  destruct (process_attempt_total env file g idx (clock env w) (ext_of name)
              (temp_path (uuid4 env (log EClock w)) idx (ext_of name))
              (log EUuid (log EClock w))) as (d & w2 & Hd & _).
  destruct (try_finally_cleanup env _
              (temp_path (uuid4 env (log EClock w)) idx (ext_of name))
              _ _ _ Hd) as (w' & Hrun & Hclean).
  exists d, w2, w'. now repeat split.
Qed.

Lemma gemini_direct_fs (path : string) (w : World) :
  fs (snd (gemini_direct env path w)) = fs w.
Proof.
  unfold gemini_direct, bind, genai_upload_file, genai_generate_content,
    genai_delete_file, call, of_outcome, ret, raise.
  destruct (upload_file env path "application/pdf" w) as [rname |];
    [| reflexivity]. cbn [id].
  destruct (generate_content env "gemini-2.5-flash" rname
              get_extraction_prompt (log (EUpload path true) w)) as [r |];
    [| reflexivity]. cbn [id].
  destruct (delete_file env rname
              (log (EGenerate rname true) (log (EUpload path true) w)));
    [| reflexivity]. cbn [id].
  destruct (text r) as [raw |]; [| reflexivity].
  now destruct (json_loads env (normalize_response raw)).
Qed.

Lemma save_upload_creates (file : UploadFile) (path : string) (w w1 : World)
    (u : unit) :
  save_upload env file path w = (Return u, w1) -> path ∈ fs w1.
Proof.
  unfold save_upload, bind, read, open_wb, write, call.
  destruct (file_read env file w) as [content |]; [| refute_eq]. cbn [id].
  destruct (os_open env path (log (ERead file true) w)); [| refute_eq].
  destruct (f_write env path content _); [| refute_eq].
  intros H. injection H as _ <-. simpl.
  apply elem_of_union_l, elem_of_singleton. reflexivity.
Qed.

(** Once the upload is staged, the scratch copy is there when the [try]
    block is left. *)
Lemma process_attempt_keeps_scratch (file : UploadFile) (g : bool)
    (idx start : Z) (file_ext path : string) (w w1 w2 : World) (u : unit)
    (d : dict) :
  save_upload env file path w = (Return u, w1) ->
  process_attempt env file g idx start file_ext path w = (Return d, w2) ->
  path ∈ fs w2.
Proof.
  intros Hsave. rewrite process_attempt_cases, Hsave.
  pose proof (save_upload_creates _ _ _ _ _ Hsave) as Hin.
  destruct (String.eqb file_ext ".pdf").
  - pose proof (gemini_direct_fs path w1) as Hfs.
    destruct (gemini_direct env path w1) as [[data | e] w3]; simpl in Hfs;
      intros H; injection H as _ <-; simpl; now rewrite Hfs.
  - intros H. now injection H as _ <-.
Qed.

End CallerFacts.

(** C7 (amended).  For every named file and every outcome of the [try]
    block, the value returned by [process_single_document] is the one the
    [try] block produced; on the way out the existence of the scratch copy
    is tested and, when it exists, its removal is attempted once; a failure
    of the removal is swallowed.  After the call the scratch copy exists
    exactly when it existed on the way out and its removal failed; in
    particular it is gone whenever the removal succeeds.  A staged upload is
    always there on the way out, so its removal is always attempted. *)
Theorem scratch_copy_cleanup (env : Env) (file : UploadFile) (g : bool)
    (idx : Z) (w : World) (name : string) :
  filename file = Some name ->
  let path := scratch_path env file idx w in
  exists (d : dict) (w2 w' : World),
    process_attempt env file g idx (clock env w) (ext_of name) path
      (entered w) = (Return d, w2)
    /\ process_single_document env file g idx w = (Return d, w')
    /\ (forall w1 u, save_upload env file path (entered w) = (Return u, w1) ->
        path ∈ fs w2)
    /\ (path ∉ fs w2 -> w' = log (EExists path false) w2)
    /\ (path ∈ fs w2 ->
        exists ok, trace w' = ERemove path ok :: EExists path true :: trace w2)
    /\ (path ∈ fs w' <->
        path ∈ fs w2
        /\ exists msg,
             os_remove env path (log (EExists path true) w2) = Fails msg)
    /\ (os_remove env path (log (EExists path true) w2) = Ok tt ->
        path ∉ fs w').
Proof.
  intros Hn path.
  destruct (process_single_document_result env file g idx w name Hn)
    as (d & w2 & w' & Hattempt & Hclean & Hrun).
  fold path in Hattempt, Hclean.
  pose proof (cleanup_leftover env path w2 w' Hclean) as Hleft.
  exists d, w2, w'.
  split; [exact Hattempt |]. split; [exact Hrun |].
  split; [| split; [| split; [| split; [exact Hleft |]]]].
  - intros w1 u Hsave.
    exact (process_attempt_keeps_scratch env _ _ _ _ _ _ _ _ _ _ _
             Hsave Hattempt).
  - intros Hout. rewrite cleanup_absent in Hclean by exact Hout.
    now injection Hclean as <-.
  - intros Hin.
    destruct (os_remove env path (log (EExists path true) w2)) as [[] | msg]
      eqn:Hrm.
    + rewrite cleanup_removed in Hclean by assumption.
      injection Hclean as <-. now exists true.
    + rewrite (cleanup_kept env path w2 msg) in Hclean by assumption.
      injection Hclean as <-. now exists false.
  - intros Hok Hin. apply Hleft in Hin as [_ [msg Hmsg]].
    rewrite Hok in Hmsg. discriminate Hmsg.
Qed.

Lemma scratch_copy_cleanup_witness :
  filename (upload "a.pdf" 0) = Some "a.pdf"
  /\ exists d w',
       process_single_document (scripted all_ok) (upload "a.pdf" 0) false 0 w0
       = (Return d, w')
       /\ "tmp/0f8fad5b_0.pdf" ∉ fs w'.
Proof.
  split; [reflexivity |].
  destruct (scratch_copy_cleanup (scripted all_ok) (upload "a.pdf" 0) false 0
              w0 "a.pdf" eq_refl)
    as (d & w2 & w' & _ & Hrun & _ & _ & _ & _ & Hgone).
  exists d, w'. split; [exact Hrun |]. now apply Hgone.
Defined.

(** C7 as worded fails: when the removal of the scratch copy fails, the
    failure is swallowed and the file is still there after the call. *)
Lemma failed_removal_leaves_scratch :
  ~ scratch_always_gone (scripted remove_fails) (upload "a.pdf" 0) false 0 w0.
Proof.
  intros (d & w' & Hrun & Hgone). apply Hgone.
  assert (Hw : scratch_path (scripted remove_fails) (upload "a.pdf" 0) 0 w0
               ∈ fs (snd (process_single_document (scripted remove_fails)
                            (upload "a.pdf" 0) false 0 w0))).
  { apply (bool_decide_eq_true_1 _). vm_compute. reflexivity. }
  now rewrite Hrun in Hw.
Qed.

(** C5 (amended).  A named file whose extension, in lower case, is not
    [.pdf] always yields a FileError for its index and filename, and the
    outcome is the same for both values of [gemini_only].  When the upload
    was read and staged, the message is the one that names the extension;
    when reading or staging failed, the message is that failure's.  The
    loop of [scan_documents] appends this FileError and goes on with the
    files that follow. *)
Theorem non_pdf_is_file_error (env : Env) (file : UploadFile) (g : bool)
    (idx : Z) (w : World) (name : string) :
  filename file = Some name ->
  ext_of name <> ".pdf" ->
  (exists (msg : string) (w' : World),
     process_single_document env file g idx w
     = (Return (error_dict idx (Some name) msg), w')
     /\ process_single_document env file (negb g) idx w
        = process_single_document env file g idx w
     /\ match save_upload env file (scratch_path env file idx w) (entered w)
        with
        | (Return _, _) =>
            msg = unsupported_msg (ext_of name)
            /\ Str.contains msg (ext_of name) = true
        | (Raise e, _) => msg = str_exn e
        end)
  /\ (forall (i : nat) (rest : list UploadFile) (res errs : list dict)
        (w0 : World),
        exists (msg : string) (w' : World),
          process_files env g (file :: rest) i (res, errs) w0
          = process_files env g rest (S i)
              (res, (errs ++ [error_dict (Z.of_nat i) (Some name) msg])%list)
              w').
Proof.
  intros Hn Hext.
  assert (Hnot : String.eqb (ext_of name) ".pdf" = false)
    by now apply String.eqb_neq.
  assert (Hcall : forall idx0 w0,
            exists msg w',
              process_single_document env file g idx0 w0
              = (Return (error_dict idx0 (Some name) msg), w')
              /\ match save_upload env file (scratch_path env file idx0 w0)
                         (entered w0) with
                 | (Return _, _) => msg = unsupported_msg (ext_of name)
                 | (Raise e, _) => msg = str_exn e
                 end).
  { intros idx0 w0.
    destruct (process_single_document_result env file g idx0 w0 name Hn)
      as (d & w2 & w' & Hattempt & _ & Hrun).
    rewrite process_attempt_cases, Hnot, Hn in Hattempt.
    destruct (save_upload env file (scratch_path env file idx0 w0)
                (entered w0)) as [[u | e] w1];
      injection Hattempt as <- _; eexists _, w'; split;
      first [exact Hrun | reflexivity]. }
  split.
  - destruct (Hcall idx w) as (msg & w' & Hrun & Hmsg).
    exists msg, w'. split; [exact Hrun |]. split; [reflexivity |].
    destruct (save_upload env file (scratch_path env file idx w) (entered w))
      as [[u | e] w1]; [| exact Hmsg].
    split; [exact Hmsg |]. rewrite Hmsg. unfold unsupported_msg.
    apply StrFacts.contains_app_r. destruct (ext_of name); [reflexivity |].
    simpl. now rewrite Ascii.eqb_refl, StrFacts.startswith_refl.
  - intros i rest res errs w0.
    destruct (Hcall (Z.of_nat i) w0) as (msg & w' & Hrun & _).
    exists msg, w'. cbn [process_files]. unfold bind at 1.
    unfold process_one, try_except, bind. rewrite Hrun, Hn.
    unfold error_dict at 1.
    destruct (error_entry_keys (Z.of_nat i) (Some name) (VStr msg))
      as (-> & _).
    reflexivity.
Qed.

Lemma non_pdf_is_file_error_witness :
  filename (upload "photo.PNG" 0) = Some "photo.PNG"
  /\ ext_of "photo.PNG" <> ".pdf"
  /\ exists msg w',
       process_single_document (scripted all_ok) (upload "photo.PNG" 0)
         true 3 w0
       = (Return (error_dict 3 (Some "photo.PNG") msg), w')
       /\ Str.contains msg ".png" = true.
Proof.
  split; [reflexivity |]. split; [discriminate |].
  destruct (non_pdf_is_file_error (scripted all_ok) (upload "photo.PNG" 0)
              true 3 w0 "photo.PNG" eq_refl ltac:(discriminate))
    as [(msg & w' & Hrun & _ & Hmsg) _].
  exists msg, w'. split; [exact Hrun |].
  exact (proj2 Hmsg).
Defined.

(** C5 as worded fails: when the upload cannot be read, the FileError of a
    PNG carries the message of the read failure, which does not name the
    extension. *)
Lemma unread_png_error_omits_extension :
  ~ non_pdf_names_extension (scripted read_fails) (upload "a.png" 0) false 0
      w0.
Proof.
  intros H. destruct H as (msg & w' & Hrun & Hnames); [discriminate |].
  assert (Hv : fst (process_single_document (scripted read_fails)
                      (upload "a.png" 0) false 0 w0)
               = Return (error_dict 0 (Some "a.png") "stream closed"))
    by (vm_compute; reflexivity).
  rewrite Hrun in Hv. cbn [fst filename upload] in Hv.
  apply Return_error_msg in Hv. subst msg.
  discriminate Hnames.
Qed.

(** The direct path after the remote upload and the generation have
    succeeded: [genai.delete_file] (line 98) is called inside the inner
    [try], before the response is read.  When it raises, the response is
    dropped and the file yields the FileError
    [Direct Gemini processing failed: <message of the deletion failure>];
    when it returns, the normalised, parsed response is the FileResult. *)
Lemma direct_path_after_generation (env : Env) (file : UploadFile)
    (g : bool) (idx : Z) (w : World) (name : string) (w2 : World)
    (rname : string) (r : Response) :
  filename file = Some name ->
  ext_of name = ".pdf" ->
  let path := scratch_path env file idx w in
  save_upload env file path (entered w) = (Return tt, w2) ->
  upload_file env path "application/pdf" w2 = Ok rname ->
  generate_content env "gemini-2.5-flash" rname get_extraction_prompt
    (log (EUpload path true) w2) = Ok r ->
  (forall msg,
     delete_file env rname (answered path rname w2) = Fails msg ->
     exists w',
       process_single_document env file g idx w
       = (Return (error_dict idx (Some name) (direct_failed_msg msg)), w'))
  /\ (delete_file env rname (answered path rname w2) = Ok tt ->
      forall raw data,
        text r = Ok raw ->
        json_loads env (normalize_response raw) = Ok data ->
        exists t w',
          process_single_document env file g idx w
          = (Return (result_dict idx (Some name) t data), w')).
Proof.
  intros Hn Hext path Hsave Hup Hgen.
  destruct (process_single_document_result env file g idx w name Hn)
    as (d & w3 & w' & Hattempt & _ & Hrun).
  fold path in Hattempt.
  rewrite process_attempt_cases, Hsave, Hext, Hn in Hattempt.
  cbn [String.eqb] in Hattempt.
  change (String.eqb ".pdf" ".pdf") with true in Hattempt.
  split.
  - intros msg Hdel.
    rewrite (gemini_direct_delete_failed env path w2 rname r msg Hup Hgen Hdel)
      in Hattempt.
    injection Hattempt as <- _. now exists w'.
  - intros Hdel raw data Htext Hloads.
    rewrite (gemini_direct_parsed env path w2 rname r raw Hup Hgen Hdel Htext),
      Hloads in Hattempt.
    injection Hattempt as <- _. eexists _, w'. exact Hrun.
Qed.

(** C9.  The code at the failing input: the PDF [a.pdf] is staged, the
    remote upload and the generation succeed, the text of the response
    parses to the object [{"document_type": "Flight"}], and
    [genai.delete_file] raises [403 permission denied].  The call returns
    the FileError [Direct Gemini processing failed: 403 permission denied]
    instead of the FileResult with the parsed data, which the same call
    returns when the deletion succeeds: the failed deletion masks the
    result, and the claim as worded is false there. *)
Theorem remote_delete_failure_masks_result :
  let env := scripted remote_delete_fails in
  let file := upload "a.pdf" 0 in
  let path := scratch_path env file 0 w0 in
  (exists w2,
     save_upload env file path (entered w0) = (Return tt, w2)
     /\ upload_file env path "application/pdf" w2 = Ok "files/k3x9"
     /\ generate_content env "gemini-2.5-flash" "files/k3x9"
          get_extraction_prompt (log (EUpload path true) w2)
        = Ok (mkResponse (Ok fenced_flight))
     /\ json_loads env (normalize_response fenced_flight) = Ok flight_object
     /\ delete_file env "files/k3x9" (answered path "files/k3x9" w2)
        = Fails "403 permission denied")
  /\ (exists w',
        process_single_document env file false 0 w0
        = (Return (error_dict 0 (Some "a.pdf")
                     "Direct Gemini processing failed: 403 permission denied"),
           w'))
  /\ (exists t w',
        process_single_document (scripted all_ok) file false 0 w0
        = (Return (result_dict 0 (Some "a.pdf") t flight_object), w'))
  /\ ~ remote_delete_harmless env file false 0 w0.
Proof.
  intros env file path.
  assert (Herr : exists w',
             process_single_document env file false 0 w0
             = (Return (error_dict 0 (Some "a.pdf")
                          "Direct Gemini processing failed: 403 permission denied"),
                w')).
  { exact (proj1 (direct_path_after_generation env file false 0 w0 "a.pdf" _
                    "files/k3x9" (mkResponse (Ok fenced_flight))
                    eq_refl eq_refl eq_refl eq_refl eq_refl)
             "403 permission denied" eq_refl). }
  split; [| split; [exact Herr | split]].
  - eexists. repeat (split; [reflexivity |]). reflexivity.
  - exact (proj2 (direct_path_after_generation (scripted all_ok) file false 0
                    w0 "a.pdf" _ "files/k3x9" (mkResponse (Ok fenced_flight))
                    eq_refl eq_refl eq_refl eq_refl eq_refl)
             eq_refl fenced_flight flight_object eq_refl eq_refl).
  - intros H.
    destruct (H _ "files/k3x9" (mkResponse (Ok fenced_flight)) fenced_flight
                flight_object eq_refl eq_refl eq_refl eq_refl eq_refl eq_refl)
      as (t & w' & Hrun).
    destruct Herr as (w'' & Herr). rewrite Hrun in Herr.
    apply (f_equal fst) in Herr. cbn [fst] in Herr. symmetry in Herr.
    now apply Return_error_not_result in Herr.
Qed.

(** ** The pipeline on sample batches *)

(** Two PDFs, the remote call failing for the second: index 0 is a result,
    index 1 an error, and both are counted. *)
Example second_of_two_fails :
  exists s w',
    scan_documents (scripted second_upload_fails) two_pdfs false w0
    = (Return s, w')
    /\ total_files s = 2%nat
    /\ results s = [result_dict 0 (Some "a.pdf") 8 flight_object]
    /\ errors s
       = Some [error_dict 1 (Some "b.PDF")
                 "Direct Gemini processing failed: quota exceeded"].
Proof.
  eexists _, _. split; [reflexivity |].
  split; [reflexivity |]. split; vm_compute; reflexivity.
Qed.

(** A PDF and a text file: the batch is refused before anything is read. *)
Example pdf_and_txt_refused :
  scan_documents (scripted all_ok) [upload "a.pdf" 0; upload "b.txt" 1]
    false w0
  = (Raise (HTTPException 400
              "Unsupported file type: .txt. Allowed: .jpg, .pdf, .jpeg, .png"),
     {| fs := ∅; trace := [EClock] |}).
Proof. reflexivity. Qed.

(** An image passes validation and fails in the processor. *)
Example image_accepted_then_failed :
  fst (scan_documents (scripted all_ok) [upload "scan.JPG" 0] true w0)
  = Return {| total_files := 1;
              successful_extractions := 0;
              failed_extractions := 1;
              total_processing_time := 8;
              results := [];
              errors := Some [error_dict 0 (Some "scan.JPG")
                                (unsupported_msg ".jpg")] |}.
Proof. vm_compute. reflexivity. Qed.

(** A missing filename makes the processor itself raise; the loop of
    [scan_documents] is never handed such a file. *)
Example unnamed_file_raises :
  fst (process_single_document (scripted all_ok)
         {| filename := None; stream := 0 |} false 0 w0)
  = Raise (Exception "expected str, bytes or os.PathLike object, not NoneType").
Proof. reflexivity. Qed.

(** A PDF whose data hold a float that is not a number: the processor
    returns a FileResult, and the rendering of the summary (line 226) makes
    the whole call raise. *)
Example nan_data_aborts_batch :
  (exists t,
     fst (process_single_document (scripted fare_is_nan) (upload "a.pdf" 0)
            false 0 (log EClock w0))
     = Return (result_dict 0 (Some "a.pdf") t
                 (JObj [("fare", JFloat "NaN")])))
  /\ fst (scan_documents (scripted fare_is_nan) [upload "a.pdf" 0] false w0)
     = Raise (Exception "Out of range float values are not JSON compliant").
Proof.
  split; [eexists |]; vm_compute; reflexivity.
Qed.

(** ** Further properties: what a run does to the world *)

Section Steps.

Variable R : World -> World -> Prop.
Variable ok : Event -> Prop.
Variable okp : string -> Prop.
Hypothesis T : tolerates R ok okp.

Lemma preserves_ret {A} (a : A) : preserves R (ret a).
Proof. intros w. apply (tol_refl _ _ _ T). Qed.

Lemma preserves_raise {A} (e : exn) : preserves R (@raise A e).
Proof. intros w. apply (tol_refl _ _ _ T). Qed.

Lemma preserves_of_outcome {A} (o : outcome A) : preserves R (of_outcome o).
Proof. destruct o; [apply preserves_ret | apply preserves_raise]. Qed.

Lemma preserves_bind {A B} (m : M A) (k : A -> M B) :
  preserves R m -> (forall a, preserves R (k a)) -> preserves R (bind m k).
Proof.
  intros Hm Hk w. unfold bind. specialize (Hm w).
  destruct (m w) as [[a | e] w1]; simpl in *; [| exact Hm].
  exact (tol_trans _ _ _ T _ _ _ Hm (Hk a w1)).
Qed.

Lemma preserves_try_except {A} (m : M A) (h : exn -> M A) :
  preserves R m -> (forall e, preserves R (h e)) ->
  preserves R (try_except m h).
Proof.
  intros Hm Hh w. unfold try_except. specialize (Hm w).
  destruct (m w) as [[a | e] w1]; simpl in *; [exact Hm |].
  exact (tol_trans _ _ _ T _ _ _ Hm (Hh e w1)).
Qed.

Lemma preserves_try_finally {A} (m : M A) (fin : M unit) :
  preserves R m -> preserves R fin -> preserves R (try_finally m fin).
Proof.
  intros Hm Hf w. unfold try_finally. specialize (Hm w).
  destruct (m w) as [r w1]. specialize (Hf w1). simpl in *.
  destruct (fin w1) as [[u | e] w2]; simpl in *;
    exact (tol_trans _ _ _ T _ _ _ Hm Hf).
Qed.

Lemma preserves_call {A} (ans : World -> outcome A) (ev : bool -> Event)
    (effect : World -> World) :
  (forall b, ok (ev b)) -> (forall w, R w (effect w)) ->
  preserves R (call ans ev effect).
Proof.
  intros Hev Heff w. unfold call. destruct (ans w); simpl.
  - eapply (tol_trans _ _ _ T); [apply Heff | apply (tol_log _ _ _ T), Hev].
  - apply (tol_log _ _ _ T), Hev.
Qed.

Variable env : Env.

Lemma preserves_save_upload (file : UploadFile) (path : string) :
  (forall b, ok (ERead file b)) -> (forall b, ok (EOpen path b)) ->
  (forall b, ok (EWrite path b)) -> okp path ->
  preserves R (save_upload env file path).
Proof.
  intros Hr Ho Hw Hp. unfold save_upload, read, open_wb, write.
  apply preserves_bind;
    [apply preserves_call; [exact Hr | apply (tol_refl _ _ _ T)] |].
  intros content. apply preserves_bind.
  - apply preserves_call; [exact Ho |].
    intros w. now apply (tol_create _ _ _ T).
  - intros _. apply preserves_call; [exact Hw | apply (tol_refl _ _ _ T)].
Qed.

Lemma preserves_gemini_direct (path : string) :
  (forall e, is_remote e = true -> ok e) ->
  preserves R (gemini_direct env path).
Proof.
  intros Hrem. unfold gemini_direct, genai_upload_file,
    genai_generate_content, genai_delete_file.
  apply preserves_bind;
    [apply preserves_call; [intros; now apply Hrem
                           | apply (tol_refl _ _ _ T)] |].
  intros rname.
  apply preserves_bind;
    [apply preserves_call; [intros; now apply Hrem
                           | apply (tol_refl _ _ _ T)] |].
  intros r.
  apply preserves_bind;
    [apply preserves_call; [intros; now apply Hrem
                           | apply (tol_refl _ _ _ T)] |].
  intros _. apply preserves_bind; [apply preserves_of_outcome |].
  intros raw. apply preserves_of_outcome.
Qed.

Lemma preserves_cleanup (path : string) :
  (forall b, ok (EExists path b)) -> (forall b, ok (ERemove path b)) ->
  okp path ->
  preserves R (cleanup env path).
Proof.
  intros He Hr Hp. unfold cleanup.
  apply preserves_bind; [intros w; now apply (tol_log _ _ _ T) |].
  intros [|]; [| apply preserves_ret].
  apply preserves_try_except; [| intros; apply preserves_ret].
  apply preserves_call; [exact Hr |].
  intros w. now apply (tol_unlink _ _ _ T).
Qed.

Lemma preserves_time : ok EClock -> preserves R (time_time env).
Proof. intros H w. now apply (tol_log _ _ _ T). Qed.

(** The [try] block when the remote calls are tolerated. *)
Lemma preserves_process_attempt (file : UploadFile) (g : bool)
    (idx start : Z) (file_ext path : string) :
  (forall e, is_remote e = true -> ok e) -> ok EClock ->
  (forall b, ok (ERead file b)) -> (forall b, ok (EOpen path b)) ->
  (forall b, ok (EWrite path b)) -> okp path ->
  preserves R (process_attempt env file g idx start file_ext path).
Proof.
  intros Hrem Hc Hr Ho Hw Hp. unfold process_attempt.
  apply preserves_try_except; [| intros; apply preserves_ret].
  apply preserves_bind; [now apply preserves_save_upload |].
  intros _. destruct (String.eqb file_ext ".pdf"); [| apply preserves_raise].
  apply preserves_try_except; [| intros; apply preserves_raise].
  apply preserves_bind; [now apply preserves_gemini_direct |].
  intros data. apply preserves_bind; [now apply preserves_time |].
  intros now. apply preserves_ret.
Qed.

(** The [try] block of a file that is not a PDF: no remote call needs to
    be tolerated. *)
Lemma preserves_process_attempt_other (file : UploadFile) (g : bool)
    (idx start : Z) (file_ext path : string) :
  String.eqb file_ext ".pdf" = false ->
  (forall b, ok (ERead file b)) -> (forall b, ok (EOpen path b)) ->
  (forall b, ok (EWrite path b)) -> okp path ->
  preserves R (process_attempt env file g idx start file_ext path).
Proof.
  intros Hext Hr Ho Hw Hp. unfold process_attempt. rewrite Hext.
  apply preserves_try_except; [| intros; apply preserves_ret].
  apply preserves_bind; [now apply preserves_save_upload |].
  intros _. apply preserves_raise.
Qed.

Lemma step_entered (w : World) :
  ok EClock -> ok EUuid -> R w (entered w).
Proof.
  intros Hc Hu. unfold entered.
  eapply (tol_trans _ _ _ T); now apply (tol_log _ _ _ T).
Qed.

(** One call, when every event is tolerated and the scratch path of the
    call may be created and removed. *)
Lemma step_process_single_document (file : UploadFile) (g : bool) (idx : Z)
    (w : World) :
  (forall e, ok e) -> okp (scratch_path env file idx w) ->
  R w (snd (process_single_document env file g idx w)).
Proof.
  intros Hok Hp.
  pose proof (step_entered w (Hok _) (Hok _)) as Hin.
  destruct (filename file) as [name |] eqn:Hn.
  - rewrite (process_single_document_named env file g idx w name Hn).
    cbv zeta. unfold scratch_path, file_ext_of in Hp. rewrite Hn in Hp.
    eapply (tol_trans _ _ _ T); [exact Hin |].
    apply preserves_try_finally.
    + now apply preserves_process_attempt.
    + now apply preserves_cleanup.
  - now rewrite process_single_document_unnamed.
Qed.

End Steps.

Section Loop.

Variable R : World -> World -> Prop.
Hypothesis R_refl : forall w, R w w.
Hypothesis R_trans : forall w1 w2 w3, R w1 w2 -> R w2 w3 -> R w1 w3.
Variable env : Env.
Variable g : bool.

(** The files for which one call is known to respect [R]. *)
Variable good : UploadFile -> Prop.
Hypothesis R_call :
  forall file idx w,
    good file -> R w (snd (process_single_document env file g idx w)).
Hypothesis R_clock : forall w, R w (log EClock w).

Lemma step_process_one (i : nat) (file : UploadFile)
    (acc : list dict * list dict) (w : World) :
  good file -> R w (snd (process_one env g i file acc w)).
Proof.
  intros Hgood. destruct acc as [res errs].
  unfold process_one, try_except, bind.
  pose proof (R_call file (Z.of_nat i) w Hgood) as H.
  destruct (process_single_document env file g (Z.of_nat i) w)
    as [[d | e] w1]; simpl in *; [| exact H].
  now destruct (d !! "error").
Qed.

Lemma step_process_files (files : list UploadFile) :
  Forall good files ->
  forall (i : nat) (acc : list dict * list dict) (w : World),
    R w (snd (process_files env g files i acc w)).
Proof.
  induction 1 as [| f rest Hf _ IH]; intros i acc w; [apply R_refl |].
  cbn [process_files]. unfold bind.
  pose proof (step_process_one i f acc w Hf) as H.
  destruct (process_one env g i f acc w) as [[acc' | e] w1]; simpl in *;
    [| exact H].
  exact (R_trans _ _ _ H (IH (S i) acc' w1)).
Qed.

Lemma validate_world (files : list UploadFile) (w : World) :
  snd (validate env files w) = w.
Proof.
  rewrite validate_cases.
  destruct (match files with [] => true | _ => false end || all_unnamed files);
    [reflexivity |].
  destruct (List.filter is_valid files) as [| f0 rest]; [reflexivity |].
  cbv zeta. now destruct (List.find offending (f0 :: rest)).
Qed.

Lemma filter_valid_good (files : list UploadFile) :
  Forall good files -> Forall good (List.filter is_valid files).
Proof.
  induction 1 as [| f rest Hf _ IH]; simpl; [constructor |].
  destruct (is_valid f); [now constructor | exact IH].
Qed.

Lemma step_scan_documents (files : list UploadFile) (w : World) :
  Forall good files -> R w (snd (scan_documents env files g w)).
Proof.
  intros Hgood. rewrite scan_documents_cases.
  pose proof (validate_world files (log EClock w)) as Hw.
  destruct (validate env files (log EClock w)) as [[valid | e] w1] eqn:Hv;
    simpl in Hw; subst w1; [| apply R_clock].
  apply validate_accepts in Hv as (-> & _).
  pose proof (step_process_files _ (filter_valid_good files Hgood) 0 ([], [])
                (log EClock w)) as H.
  destruct (process_files env g (List.filter is_valid files) 0 ([], [])
              (log EClock w)) as [[[res errs] | e] w2]; simpl in *.
  - exact (R_trans _ _ _ (R_clock w) (R_trans _ _ _ H (R_clock w2))).
  - exact (R_trans _ _ _ (R_clock w) H).
Qed.

End Loop.

(** ** Further properties: the staging directory *)

Lemma same_at_tolerates (p : string) :
  tolerates (same_at p) (fun _ => True) (fun q => q <> p).
Proof.
  split; unfold same_at.
  - tauto.
  - tauto.
  - intros e w _. simpl. tauto.
  - intros q w Hq. simpl.
    rewrite elem_of_union, elem_of_singleton. split; [| tauto].
    intros [-> | H]; [now destruct Hq | exact H].
  - intros q w Hq. simpl.
    rewrite elem_of_difference, elem_of_singleton. split; [tauto |].
    intros H. split; [exact H | congruence].
Qed.

Lemma process_single_document_fs_other (env : Env) (file : UploadFile)
    (g : bool) (idx : Z) (w : World) (p : string) :
  p <> scratch_path env file idx w ->
  same_at p w (snd (process_single_document env file g idx w)).
Proof.
  intros Hp.
  apply (step_process_single_document _ _ _ (same_at_tolerates p));
    [tauto | congruence].
Qed.

(** X1.  One call of [process_single_document] creates and removes no file
    but its own scratch copy: every other path of the staging directory
    exists after the call exactly when it existed before. *)
Theorem other_paths_untouched (env : Env) (file : UploadFile) (g : bool)
    (idx : Z) (w : World) (p : string) :
  p <> scratch_path env file idx w ->
  p ∈ fs (snd (process_single_document env file g idx w)) <-> p ∈ fs w.
Proof.
  intros Hp.
  change (same_at p w (snd (process_single_document env file g idx w))).
  apply (step_process_single_document _ _ _ (same_at_tolerates p)).
  - intros e. exact I.
  - intros Heq. apply Hp. now symmetry.
Qed.

Lemma other_paths_untouched_witness :
  "tmp/1c0ffee1_0.pdf"
  <> scratch_path (scripted all_ok) (upload "a.pdf" 0) 0 w_occupied
  /\ "tmp/1c0ffee1_0.pdf"
     ∈ fs (snd (process_single_document (scripted all_ok) (upload "a.pdf" 0)
                  false 0 w_occupied)).
Proof.
  split; [discriminate |].
  refine (proj2 (other_paths_untouched (scripted all_ok) (upload "a.pdf" 0)
                   false 0 w_occupied "tmp/1c0ffee1_0.pdf"
                   ltac:(discriminate)) _).
  exact (proj2 (elem_of_singleton _ _) eq_refl).
Defined.

Lemma fs_shrinks_refl (w : World) : fs_shrinks w w.
Proof. unfold fs_shrinks. reflexivity. Qed.

Lemma fs_shrinks_trans (w1 w2 w3 : World) :
  fs_shrinks w1 w2 -> fs_shrinks w2 w3 -> fs_shrinks w1 w3.
Proof. unfold fs_shrinks. intros H1 H2. now transitivity (fs w2). Qed.

Lemma process_single_document_fs_shrinks (env : Env) (file : UploadFile)
    (g : bool) (idx : Z) (w : World) :
  (forall p w0, os_remove env p w0 = Ok tt) ->
  fs_shrinks w (snd (process_single_document env file g idx w)).
Proof.
  intros Hrm. unfold fs_shrinks. apply elem_of_subseteq. intros p Hin.
  destruct (decide (p = scratch_path env file idx w)) as [-> | Hne].
  - destruct (filename file) as [name |] eqn:Hn.
    + destruct (process_single_document_result env file g idx w name Hn)
        as (d & w2 & w' & _ & Hclean & Hrun).
      rewrite Hrun in Hin. simpl in Hin.
      apply (cleanup_leftover env _ _ _ Hclean) in Hin as [_ [msg Hmsg]].
      rewrite Hrm in Hmsg. discriminate Hmsg.
    + now rewrite process_single_document_unnamed in Hin.
  - now apply (process_single_document_fs_other env file g idx w p Hne).
Qed.

(** X2.  When no removal of a scratch copy fails, a whole call of
    [scan_documents] leaves no new file in the staging directory: every
    path that exists afterwards existed before, whatever the files and the
    outcomes of the reads and of the remote calls are. *)
Theorem staging_left_clean (env : Env) (files : list UploadFile) (g : bool)
    (w : World) :
  (forall p w0, os_remove env p w0 = Ok tt) ->
  fs (snd (scan_documents env files g w)) ⊆ fs w.
Proof.
  intros Hrm.
  apply (step_scan_documents fs_shrinks fs_shrinks_refl fs_shrinks_trans
           env g (fun _ => True)).
  - intros file idx w0 _.
    now apply process_single_document_fs_shrinks.
  - intros w0. unfold fs_shrinks. simpl. reflexivity.
  - now apply Forall_true.
Qed.

Lemma staging_left_clean_witness :
  (forall p w0, os_remove (scripted all_ok) p w0 = Ok tt)
  /\ fs (snd (scan_documents (scripted all_ok) two_pdfs false w_occupied))
     ⊆ fs w_occupied.
Proof.
  split; [reflexivity |].
  apply (staging_left_clean (scripted all_ok) two_pdfs false w_occupied).
  reflexivity.
Defined.

(** ** Further properties: the remote service *)

Lemma same_remote_refl (w : World) : same_remote w w.
Proof. reflexivity. Qed.

Lemma same_remote_trans (w1 w2 w3 : World) :
  same_remote w1 w2 -> same_remote w2 w3 -> same_remote w1 w3.
Proof. unfold same_remote. congruence. Qed.

Lemma same_remote_tolerates :
  tolerates same_remote (fun e => is_remote e = false) (fun _ => True).
Proof.
  split; unfold same_remote; try congruence; try reflexivity.
  intros e w H. unfold remote_calls. simpl. now rewrite H.
Qed.

Lemma process_single_document_no_remote (env : Env) (file : UploadFile)
    (g : bool) (idx : Z) (w : World) :
  file_ext_of file <> ".pdf" ->
  same_remote w (snd (process_single_document env file g idx w)).
Proof.
  intros Hext.
  destruct (filename file) as [name |] eqn:Hn.
  - rewrite (process_single_document_named env file g idx w name Hn).
    cbv zeta. unfold file_ext_of in Hext. rewrite Hn in Hext.
    apply String.eqb_neq in Hext.
    apply (same_remote_trans w (entered w)); [reflexivity |].
    apply (preserves_try_finally _ _ _ same_remote_tolerates).
    + now apply (preserves_process_attempt_other _ _ _
                   same_remote_tolerates).
    + now apply (preserves_cleanup _ _ _ same_remote_tolerates).
  - now rewrite process_single_document_unnamed.
Qed.

(** X3.  A batch in which no file is a PDF never reaches the remote
    service: [scan_documents] makes no upload, no generation request and no
    remote deletion, and neither does any single call of
    [process_single_document] on one of its files. *)
Theorem images_never_sent (env : Env) (files : list UploadFile) (g : bool)
    (w : World) :
  Forall (fun f => file_ext_of f <> ".pdf") files ->
  remote_calls (trace (snd (scan_documents env files g w)))
  = remote_calls (trace w)
  /\ (forall f idx w0,
        f ∈ files ->
        remote_calls (trace (snd (process_single_document env f g idx w0)))
        = remote_calls (trace w0)).
Proof.
  intros Hall. split.
  - apply (step_scan_documents same_remote same_remote_refl
             same_remote_trans env g (fun f => file_ext_of f <> ".pdf"));
      [| reflexivity | exact Hall].
    intros file idx w0. apply process_single_document_no_remote.
  - intros f idx w0 Hin. apply process_single_document_no_remote.
    rewrite List.Forall_forall in Hall. now apply Hall, list_elem_of_In.
Qed.

Lemma images_never_sent_witness :
  Forall (fun f => file_ext_of f <> ".pdf") two_images
  /\ remote_calls
       (trace (snd (scan_documents (scripted all_ok) two_images false w0)))
     = [].
Proof.
  assert (H : Forall (fun f => file_ext_of f <> ".pdf") two_images)
    by (repeat constructor; discriminate).
  split; [exact H |].
  exact (proj1 (images_never_sent (scripted all_ok) two_images false w0 H)).
Defined.

Lemma gemini_direct_session (env : Env) (path : string) (w : World) :
  exists new,
    trace (snd (gemini_direct env path w)) = (new ++ trace w)%list
    /\ remote_session path new.
Proof.
  unfold gemini_direct, bind, genai_upload_file, genai_generate_content,
    genai_delete_file, call, of_outcome, ret, raise, remote_session.
  destruct (upload_file env path "application/pdf" w) as [rname |].
  2:{ exists [EUpload path false]. split; [reflexivity | now left]. }
  cbn [id].
  destruct (generate_content env "gemini-2.5-flash" rname
              get_extraction_prompt (log (EUpload path true) w)) as [r |].
  2:{ exists [EGenerate rname false; EUpload path true].
      split; [reflexivity | right; left; now exists rname]. }
  cbn [id].
  destruct (delete_file env rname
              (log (EGenerate rname true) (log (EUpload path true) w))).
  - exists [EDeleteRemote rname true; EGenerate rname true;
            EUpload path true].
    split; [| right; right; now exists rname, true].
    cbn [id]. destruct (text r) as [raw |]; [| reflexivity].
    now destruct (json_loads env (normalize_response raw)).
  - exists [EDeleteRemote rname false; EGenerate rname true;
            EUpload path true].
    split; [reflexivity | right; right; now exists rname, false].
Qed.

Lemma remote_session_calls (path : string) (new t : list Event) :
  remote_session path new ->
  remote_calls (new ++ t) = (new ++ remote_calls t)%list.
Proof.
  intros [-> | [[n ->] | (n & ok & ->)]]; reflexivity.
Qed.

(** X4.  Whatever the file and the answers of the environment, one call of
    [process_single_document] makes the remote calls of at most one session
    on its own scratch copy: nothing, or a failed upload, or an upload and
    a failed generation, or an upload, a generation and one attempt to
    delete the uploaded file.  The deletion is attempted only after a
    successful generation: when the generation fails, the file uploaded to
    the service is left there. *)
Theorem one_remote_session (env : Env) (file : UploadFile) (g : bool)
    (idx : Z) (w : World) :
  exists new,
    remote_calls (trace (snd (process_single_document env file g idx w)))
    = (new ++ remote_calls (trace w))%list
    /\ (new = [] \/ remote_session (scratch_path env file idx w) new).
Proof.
  destruct (filename file) as [name |] eqn:Hn.
  2:{ exists []. rewrite process_single_document_unnamed by exact Hn.
      split; [reflexivity | now left]. }
  destruct (process_single_document_result env file g idx w name Hn)
    as (d & w2 & w' & Hattempt & Hclean & Hrun).
  rewrite Hrun. cbn [snd].
  pose proof (preserves_cleanup _ _ _ same_remote_tolerates env
                (scratch_path env file idx w) ltac:(reflexivity)
                ltac:(reflexivity) I w2) as Hc.
  rewrite Hclean in Hc. unfold same_remote in Hc. cbn [snd] in Hc.
  rewrite Hc. clear Hc Hclean Hrun w'.
  rewrite process_attempt_cases in Hattempt.
  pose proof (preserves_save_upload _ _ _ same_remote_tolerates env file
                (scratch_path env file idx w) ltac:(reflexivity)
                ltac:(reflexivity) ltac:(reflexivity) I (entered w)) as Hs.
  unfold same_remote in Hs.
  change (remote_calls (trace (entered w))) with (remote_calls (trace w))
    in Hs.
  destruct (save_upload env file (scratch_path env file idx w) (entered w))
    as [[u | e] w1]; cbn [snd] in Hs.
  2:{ injection Hattempt as _ <-. exists []. split; [exact Hs | now left]. }
  destruct (String.eqb (ext_of name) ".pdf").
  2:{ injection Hattempt as _ <-. exists []. split; [exact Hs | now left]. }
  destruct (gemini_direct_session env (scratch_path env file idx w) w1)
    as (new & Htrace & Hshape).
  exists new. split; [| now right].
  destruct (gemini_direct env (scratch_path env file idx w) w1)
    as [[data | e] w3]; cbn [snd] in Htrace; injection Hattempt as _ <-.
  - change (trace (log EClock w3)) with (EClock :: trace w3).
    change (remote_calls (EClock :: trace w3)) with (remote_calls (trace w3)).
    now rewrite Htrace, (remote_session_calls _ _ _ Hshape), Hs.
  - now rewrite Htrace, (remote_session_calls _ _ _ Hshape), Hs.
Qed.

(** ** Further properties: the upload streams *)

Lemma same_reads_tolerates :
  tolerates same_reads (fun e => is_read e = false) (fun _ => True).
Proof.
  split; unfold same_reads; try congruence; try reflexivity.
  intros e w H. simpl. now destruct e.
Qed.

Lemma save_upload_reads (env : Env) (file : UploadFile) (path : string)
    (w : World) :
  reads (trace (snd (save_upload env file path w))) = file :: reads (trace w).
Proof.
  unfold save_upload, bind, read. unfold call at 1.
  destruct (file_read env file w) as [content |]; [| reflexivity].
  cbn [id].
  pose proof (preserves_bind _ _ _ same_reads_tolerates
                (open_wb env path) (fun _ => write env path content)) as H.
  unfold preserves, same_reads, bind in H.
  rewrite H; [reflexivity | |].
  - apply (preserves_call _ _ _ same_reads_tolerates); [reflexivity |].
    reflexivity.
  - intros _. apply (preserves_call _ _ _ same_reads_tolerates);
      reflexivity.
Qed.

(** A named file is read once by its call; a file without a name is not
    read. *)
Lemma process_single_document_reads (env : Env) (file : UploadFile)
    (g : bool) (idx : Z) (w : World) :
  reads (trace (snd (process_single_document env file g idx w)))
  = match filename file with
    | Some _ => file :: reads (trace w)
    | None => reads (trace w)
    end.
Proof.
  destruct (filename file) as [name |] eqn:Hn.
  2:{ now rewrite process_single_document_unnamed. }
  destruct (process_single_document_result env file g idx w name Hn)
    as (d & w2 & w' & Hattempt & Hclean & Hrun).
  rewrite Hrun. cbn [snd].
  pose proof (preserves_cleanup _ _ _ same_reads_tolerates env
                (scratch_path env file idx w) ltac:(reflexivity)
                ltac:(reflexivity) I w2) as Hc.
  rewrite Hclean in Hc. unfold same_reads in Hc. cbn [snd] in Hc.
  rewrite Hc. clear Hc Hclean Hrun w'.
  rewrite process_attempt_cases in Hattempt.
  pose proof (save_upload_reads env file (scratch_path env file idx w)
                (entered w)) as Hs.
  change (reads (trace (entered w))) with (reads (trace w)) in Hs.
  destruct (save_upload env file (scratch_path env file idx w) (entered w))
    as [[u | e] w1]; cbn [snd] in Hs.
  2:{ now injection Hattempt as _ <-. }
  destruct (String.eqb (ext_of name) ".pdf").
  2:{ now injection Hattempt as _ <-. }
  pose proof (preserves_gemini_direct _ _ _ same_reads_tolerates env
                (scratch_path env file idx w)
                ltac:(intros e He; now destruct e) w1) as Hg.
  unfold same_reads in Hg.
  destruct (gemini_direct env (scratch_path env file idx w) w1)
    as [[data | e] w3]; cbn [snd] in Hg; injection Hattempt as _ <-.
  - change (reads (trace (log EClock w3))) with (reads (trace w3)).
    now rewrite Hg.
  - now rewrite Hg.
Qed.

Lemma process_files_reads (env : Env) (g : bool) (files : list UploadFile) :
  Forall (fun f => is_valid f = true) files ->
  forall (i : nat) (acc : list dict * list dict) (w : World),
    reads (trace (snd (process_files env g files i acc w)))
    = (rev files ++ reads (trace w))%list.
Proof.
  induction 1 as [| f rest Hf _ IH]; intros i [res errs] w; [reflexivity |].
  cbn [process_files]. unfold bind.
  pose proof (process_single_document_reads env f g (Z.of_nat i) w) as Hr.
  unfold is_valid in Hf.
  destruct (filename f) as [name |] eqn:Hn; [| discriminate Hf].
  pose proof (process_one_cases env g i f res errs w) as (w1 & Hone).
  assert (Hw : snd (process_one env g i f (res, errs) w)
               = snd (process_single_document env f g (Z.of_nat i) w)).
  { unfold process_one, try_except, bind.
    destruct (process_single_document env f g (Z.of_nat i) w)
      as [[d | e] w2]; [| reflexivity].
    now destruct (d !! "error"). }
  destruct (process_one env g i f (res, errs) w) as [[acc' | e] w2].
  - rewrite IH. cbn [snd] in Hw. rewrite Hw, Hr. cbn [rev].
    now rewrite <- app_assoc.
  - destruct Hone as [(t & data & H) | (msg & H)]; discriminate H.
Qed.

(** X5.  [scan_documents] reads the stream of every retained upload exactly
    once, in the order of the input, and reads nothing else: in an accepted
    batch the uploads read during the call are the validated list, and in a
    refused batch no upload is read.  An upload with a blank filename is
    never read. *)
Theorem uploads_read_once_in_order (env : Env) (files : list UploadFile)
    (g : bool) (w : World) :
  reads (trace (snd (scan_documents env files g w)))
  = match fst (validate env files (log EClock w)) with
    | Return valid => (rev valid ++ reads (trace w))%list
    | Raise _ => reads (trace w)
    end
  /\ (forall valid,
        fst (validate env files (log EClock w)) = Return valid ->
        valid = List.filter is_valid files).
Proof.
  split.
  - rewrite scan_documents_cases.
    pose proof (validate_world env files (log EClock w)) as Hw.
    destruct (validate env files (log EClock w)) as [[valid | e] w1] eqn:Hv;
      cbn [fst snd] in *; subst w1; [| reflexivity].
    apply validate_accepts in Hv as (-> & _).
    pose proof (process_files_reads env g _ (filter_valid_Forall files) 0
                  ([], []) (log EClock w)) as Hr.
    destruct (process_files env g (List.filter is_valid files) 0 ([], [])
                (log EClock w)) as [[[res errs] | e] w2]; exact Hr.
  - intros valid Hv.
    destruct (validate env files (log EClock w)) as [r w1] eqn:Hval.
    cbn [fst] in Hv. subst r.
    now apply validate_accepts in Hval as (-> & _).
Qed.

(** ** Further properties: the timing fields *)

Lemma later_refl (w : World) : later w w.
Proof. now exists []. Qed.

Lemma later_trans (w1 w2 w3 : World) :
  later w1 w2 -> later w2 w3 -> later w1 w3.
Proof.
  intros [e1 H1] [e2 H2]. exists (e2 ++ e1)%list.
  now rewrite H2, H1, <- app_assoc.
Qed.

Lemma later_log (e : Event) (w : World) : later w (log e w).
Proof. now exists [e]. Qed.

Lemma later_tolerates : tolerates later (fun _ => True) (fun _ => True).
Proof.
  split; intros.
  - apply later_refl.
  - eapply later_trans; eassumption.
  - apply later_log.
  - now exists [].
  - now exists [].
Qed.

Lemma timed_in_widen (env : Env) (lo lo' hi hi' : World) (d : dict) :
  later lo' lo -> later hi hi' ->
  timed_in env lo hi d -> timed_in env lo' hi' d.
Proof.
  intros Hlo Hhi (a & b & Ha & Hab & Hb & Ht).
  exists a, b. repeat split; eauto using later_trans.
Qed.

Lemma result_dict_time (i : Z) (name : option string) (t : Z) (data : json) :
  result_dict i name t data !! "processing_time" = Some (VTime t).
Proof. reflexivity. Qed.

(** A call that returns a dictionary without the key [error] measured its
    time between the entry of the call and its exit. *)
Lemma process_single_document_timed (env : Env) (file : UploadFile)
    (g : bool) (idx : Z) (w w' : World) (d : dict) :
  process_single_document env file g idx w = (Return d, w') ->
  d !! "error" = None ->
  timed_in env w w' d.
Proof.
  intros Hrun Hnoerr.
  destruct (filename file) as [name |] eqn:Hn.
  2:{ rewrite process_single_document_unnamed in Hrun by exact Hn.
      discriminate Hrun. }
  destruct (process_single_document_result env file g idx w name Hn)
    as (d0 & w2 & w0 & Hattempt & Hclean & Hrun0).
  rewrite Hrun in Hrun0. injection Hrun0 as <- <-.
  pose proof (preserves_cleanup _ _ _ later_tolerates env
                (scratch_path env file idx w) ltac:(easy) ltac:(easy) I w2)
    as Hc.
  rewrite Hclean in Hc. cbn [snd] in Hc.
  rewrite process_attempt_cases in Hattempt.
  pose proof (preserves_save_upload _ _ _ later_tolerates env file
                (scratch_path env file idx w) ltac:(easy) ltac:(easy)
                ltac:(easy) I (entered w)) as Hs.
  pose proof (step_entered _ _ _ later_tolerates w I I) as He.
  destruct (save_upload env file (scratch_path env file idx w) (entered w))
    as [[u | e] w1]; cbn [snd] in Hs.
  2:{ injection Hattempt as <- _.
      destruct (error_entry_keys idx (filename file) (VStr (str_exn e)))
        as (Herr & _).
      unfold error_dict in Hnoerr. rewrite Herr in Hnoerr.
      discriminate Hnoerr. }
  destruct (String.eqb (ext_of name) ".pdf").
  2:{ injection Hattempt as <- _.
      destruct (error_entry_keys idx (filename file)
                  (VStr (unsupported_msg (ext_of name)))) as (Herr & _).
      unfold error_dict in Hnoerr. rewrite Herr in Hnoerr.
      discriminate Hnoerr. }
  pose proof (preserves_gemini_direct _ _ _ later_tolerates env
                (scratch_path env file idx w) ltac:(easy) w1) as Hg.
  destruct (gemini_direct env (scratch_path env file idx w) w1)
    as [[data | e] w3]; cbn [snd] in Hg.
  2:{ injection Hattempt as <- _.
      destruct (error_entry_keys idx (filename file)
                  (VStr (direct_failed_msg (str_exn e)))) as (Herr & _).
      unfold error_dict in Hnoerr. rewrite Herr in Hnoerr.
      discriminate Hnoerr. }
  injection Hattempt as <- <-.
  exists w, w3. split; [apply later_refl |].
  split; [eauto using later_trans |].
  split; [eapply later_trans; [apply later_log | exact Hc] |].
  apply result_dict_time.
Qed.

Lemma process_files_timed (env : Env) (g : bool) (files : list UploadFile) :
  forall (i : nat) (res errs res' errs' : list dict) (w w' : World),
    process_files env g files i (res, errs) w = (Return (res', errs'), w') ->
    later w w'
    /\ exists R, res' = (res ++ R)%list /\ Forall (timed_in env w w') R.
Proof.
  induction files as [| f rest IH]; intros i res errs res' errs' w w' Hrun.
  - injection Hrun as <- <- <-. split; [apply later_refl |].
    exists []. now rewrite app_nil_r.
  - cbn [process_files] in Hrun. unfold bind in Hrun.
    destruct (process_one env g i f (res, errs) w) as [[[res1 errs1] | e] w1]
      eqn:Hone; [| discriminate Hrun].
    apply IH in Hrun as (Hlater & R & -> & HR).
    assert (H1 : later w w1
                 /\ exists R1, res1 = (res ++ R1)%list
                               /\ Forall (timed_in env w w1) R1).
    { unfold process_one, try_except, bind in Hone.
      destruct (process_single_document env f g (Z.of_nat i) w)
        as [[d | e] w2] eqn:Hcall.
      - pose proof (step_process_single_document _ _ _ later_tolerates env
                      f g (Z.of_nat i) w ltac:(easy) I) as Hl.
        rewrite Hcall in Hl. cbn [snd] in Hl.
        destruct (d !! "error") eqn:Herr; injection Hone as <- <- <-.
        + split; [exact Hl |]. exists []. now rewrite app_nil_r.
        + split; [exact Hl |]. exists [d]. split; [reflexivity |].
          constructor; [| constructor].
          exact (process_single_document_timed _ _ _ _ _ _ _ Hcall Herr).
      - pose proof (step_process_single_document _ _ _ later_tolerates env
                      f g (Z.of_nat i) w ltac:(easy) I) as Hl.
        rewrite Hcall in Hl. cbn [snd] in Hl.
        injection Hone as <- <- <-.
        split; [exact Hl |]. exists []. now rewrite app_nil_r. }
    destruct H1 as (Hl1 & R1 & -> & HR1).
    split; [eauto using later_trans |].
    exists (R1 ++ R)%list. split; [now rewrite app_assoc |].
    apply Forall_app. split.
    + eapply Forall_impl; [exact HR1 |]. intros d Hd.
      eapply timed_in_widen; [apply later_refl | exact Hlater | exact Hd].
    + eapply Forall_impl; [exact HR |]. intros d Hd.
      eapply timed_in_widen; [exact Hl1 | apply later_refl | exact Hd].
Qed.

(** X6.  When the clock never goes backwards, the timing fields of a
    summary are consistent: [total_processing_time] is not negative, and
    every FileResult carries a [processing_time] that is not negative and
    not larger than [total_processing_time]. *)
Theorem processing_times_bounded (env : Env) (files : list UploadFile)
    (g : bool) (w w' : World) (s : BatchSummary) :
  monotone_clock env ->
  scan_documents env files g w = (Return s, w') ->
  (0 <= total_processing_time s)%Z
  /\ Forall (fun d : dict =>
               exists t, d !! "processing_time" = Some (VTime t)
                         /\ (0 <= t <= total_processing_time s)%Z)
       (results s).
Proof.
  intros Hmono Hscan. rewrite scan_documents_cases in Hscan.
  pose proof (validate_world env files (log EClock w)) as Hw.
  destruct (validate env files (log EClock w)) as [[valid | e] w1];
    [| discriminate Hscan].
  cbn [snd] in Hw. subst w1.
  destruct (process_files env g valid 0 ([], []) (log EClock w))
    as [[[res errs] | e] w2] eqn:Hloop; [| discriminate Hscan].
  injection Hscan as Hs <-. apply rendered_Return in Hs as [-> _].
  apply process_files_timed in Hloop as (Hlater & R & -> & HR).
  cbn [total_processing_time results app].
  assert (Hstart : later w (log EClock w)) by apply later_log.
  split.
  - pose proof (Hmono _ _ (later_trans _ _ _ Hstart Hlater)). lia.
  - eapply Forall_impl; [exact HR |].
    intros d (a & b & Ha & Hab & Hb & Ht).
    eexists. split; [exact Ht |].
    pose proof (Hmono _ _ Hab).
    pose proof (Hmono _ _ Hb).
    pose proof (Hmono _ _ (later_trans _ _ _ Hstart Ha)). lia.
Qed.

Lemma scripted_clock_monotone (s : Script) : monotone_clock (scripted s).
Proof.
  intros a b [evs H]. simpl. rewrite H, length_app. lia.
Qed.

Lemma processing_times_bounded_witness :
  monotone_clock (scripted all_ok)
  /\ exists s w',
       scan_documents (scripted all_ok) two_pdfs false w0 = (Return s, w')
       /\ (0 <= total_processing_time s)%Z.
Proof.
  split; [apply scripted_clock_monotone |].
  destruct (scan_documents (scripted all_ok) two_pdfs false w0) as [r w']
    eqn:Hscan.
  assert (Hr : exists s, r = Return s).
  { apply (f_equal fst) in Hscan. cbn [fst] in Hscan. rewrite <- Hscan.
    vm_compute. eexists. reflexivity. }
  destruct Hr as [s ->]. exists s, w'. split; [reflexivity |].
  exact (proj1 (processing_times_bounded (scripted all_ok) two_pdfs false w0
                  w' s (scripted_clock_monotone all_ok) Hscan)).
Defined.

(** ** Further properties: acceptance of a batch *)

Lemma filter_valid_In (files : list UploadFile) (f : UploadFile) :
  In f (List.filter is_valid files) <-> In f files /\ blank (filename f) = false.
Proof.
  rewrite filter_In, is_valid_blank.
  now destruct (blank (filename f)).
Qed.

Lemma offending_allowed (f : UploadFile) :
  offending f = false <-> file_ext_of f ∈ allowed_extensions.
Proof.
  unfold offending. rewrite negb_false_iff. apply bool_decide_eq_true.
Qed.

(** X7.  A batch is accepted exactly when at least one filename is not
    blank and every filename that is not blank has an allowed extension;
    the list handed to the processor is then the input without the blank
    filenames, and validation has changed nothing in the world. *)
Theorem accepted_iff (env : Env) (files : list UploadFile) (w : World) :
  ((exists valid, validate env files w = (Return valid, w))
   <-> Exists (fun f => blank (filename f) = false) files
       /\ Forall (fun f => blank (filename f) = true
                           \/ file_ext_of f ∈ allowed_extensions) files)
  /\ (forall valid w',
        validate env files w = (Return valid, w') ->
        valid = List.filter is_valid files /\ w' = w).
Proof.
  split.
  2:{ intros valid w' Hv. now apply validate_accepts in Hv as (? & _ & ? & _). }
  split.
  - intros [valid Hv].
    apply validate_accepts in Hv as (-> & Hne & _ & Hfind). split.
    + destruct (List.filter is_valid files) as [| f rest] eqn:Hfil;
        [now destruct Hne |].
      assert (Hin : In f (List.filter is_valid files))
        by (rewrite Hfil; now left).
      apply filter_valid_In in Hin as [Hin Hb].
      apply List.Exists_exists. now exists f.
    + apply List.Forall_forall. intros f Hin.
      destruct (blank (filename f)) eqn:Hb; [now left | right].
      apply offending_allowed.
      apply (find_none _ _ Hfind). now apply filter_valid_In.
  - intros [Hex Hall]. rewrite validate_cases.
    apply List.Exists_exists in Hex as (f & Hin & Hb).
    assert (Hf : In f (List.filter is_valid files))
      by now apply filter_valid_In.
    rewrite (valid_file_named _ _ Hf).
    destruct (List.filter is_valid files) as [| f0 rest] eqn:Hfil;
      [destruct Hf |].
    cbv zeta. destruct (List.find offending (f0 :: rest)) as [bad |] eqn:Hfind.
    + apply find_some in Hfind as [Hbad Hoff]. rewrite <- Hfil in Hbad.
      apply filter_valid_In in Hbad as [Hbad Hnb].
      rewrite List.Forall_forall in Hall.
      destruct (Hall bad Hbad) as [Hblank | Hext]; [congruence |].
      apply offending_allowed in Hext. congruence.
    + now exists (f0 :: rest).
Qed.

Lemma filter_valid_skip (l1 l2 : list UploadFile) (b : UploadFile) :
  blank (filename b) = true ->
  List.filter is_valid (l1 ++ b :: l2) = List.filter is_valid (l1 ++ l2).
Proof.
  intros Hb. rewrite !List.filter_app. cbn [List.filter].
  now rewrite is_valid_blank, Hb.
Qed.

(** X8.  An upload with a blank filename is invisible: as long as the batch
    has a filename that is not blank, putting such an upload anywhere into
    the batch changes neither the outcome of [scan_documents] (summary or
    exception) nor the world it leaves. *)
Theorem blank_upload_invisible (env : Env) (l1 l2 : list UploadFile)
    (b : UploadFile) (g : bool) (w : World) :
  blank (filename b) = true ->
  List.filter is_valid (l1 ++ l2) <> [] ->
  scan_documents env (l1 ++ b :: l2) g w = scan_documents env (l1 ++ l2) g w.
Proof.
  intros Hb Hne.
  assert (Hv : validate env (l1 ++ b :: l2) (log EClock w)
               = validate env (l1 ++ l2) (log EClock w)).
  { rewrite !validate_cases, (filter_valid_skip l1 l2 b Hb).
    destruct (List.filter is_valid (l1 ++ l2)) as [| f rest] eqn:Hfil;
      [now destruct Hne |].
    assert (H1 : In f (List.filter is_valid (l1 ++ l2)))
      by (rewrite Hfil; now left).
    assert (H2 : In f (List.filter is_valid (l1 ++ b :: l2)))
      by (rewrite (filter_valid_skip l1 l2 b Hb), Hfil; now left).
    now rewrite (valid_file_named _ _ H1), (valid_file_named _ _ H2). }
  now rewrite !scan_documents_cases, Hv.
Qed.

Lemma blank_upload_invisible_witness :
  blank (filename (upload " " 1)) = true
  /\ List.filter is_valid ([upload "b.pdf" 0] ++ [upload "a.pdf" 2]) <> []
  /\ scan_documents (scripted all_ok)
       [upload "b.pdf" 0; upload " " 1; upload "a.pdf" 2] true w0
     = scan_documents (scripted all_ok) [upload "b.pdf" 0; upload "a.pdf" 2]
         true w0.
Proof.
  split; [reflexivity |]. split; [discriminate |].
  apply (blank_upload_invisible (scripted all_ok) [upload "b.pdf" 0]
           [upload "a.pdf" 2] (upload " " 1) true w0 eq_refl).
  discriminate.
Defined.

(** ** Further properties: where a FileResult comes from *)

Lemma error_dict_has_error (i : Z) (name : option string) (msg : string) :
  error_dict i name msg !! "error" <> None.
Proof.
  unfold error_dict.
  destruct (error_entry_keys i name (VStr msg)) as (-> & _). discriminate.
Qed.

(** A dictionary without the key [error] is returned only when the file is
    a named PDF, its upload was staged and the whole direct path
    succeeded. *)
Lemma process_single_document_result_inv (env : Env) (file : UploadFile)
    (g : bool) (idx : Z) (w w' : World) (d : dict) :
  process_single_document env file g idx w = (Return d, w') ->
  d !! "error" = None ->
  exists name w1 w3 data,
    filename file = Some name
    /\ ext_of name = ".pdf"
    /\ save_upload env file (scratch_path env file idx w) (entered w)
       = (Return tt, w1)
    /\ gemini_direct env (scratch_path env file idx w) w1 = (Return data, w3)
    /\ d = result_dict idx (Some name) (clock env w3 - clock env w) data.
Proof.
  intros Hrun Hnoerr.
  destruct (filename file) as [name |] eqn:Hn.
  2:{ rewrite process_single_document_unnamed in Hrun by exact Hn.
      discriminate Hrun. }
  destruct (process_single_document_result env file g idx w name Hn)
    as (d0 & w2 & w0 & Hattempt & _ & Hrun0).
  rewrite Hrun in Hrun0. injection Hrun0 as <- <-.
  rewrite process_attempt_cases, Hn in Hattempt.
  destruct (save_upload env file (scratch_path env file idx w) (entered w))
    as [[[] | e] w1] eqn:Hsave.
  2:{ injection Hattempt as <- _. now apply error_dict_has_error in Hnoerr. }
  destruct (String.eqb (ext_of name) ".pdf") eqn:Hext.
  2:{ injection Hattempt as <- _. now apply error_dict_has_error in Hnoerr. }
  apply String.eqb_eq in Hext.
  destruct (gemini_direct env (scratch_path env file idx w) w1)
    as [[data | e] w3] eqn:Hgem.
  2:{ injection Hattempt as <- _. now apply error_dict_has_error in Hnoerr. }
  injection Hattempt as <- _. exists name, w1, w3, data.
  repeat split; auto.
Qed.

Lemma process_files_results_pdf (env : Env) (g : bool)
    (files : list UploadFile) :
  forall (i : nat) (res errs res' errs' : list dict) (w w' : World),
    process_files env g files i (res, errs) w = (Return (res', errs'), w') ->
    exists R,
      res' = (res ++ R)%list
      /\ Forall (fun d : dict =>
                   exists k f,
                     files !! k = Some f
                     /\ d !! "file_index" = Some (VInt (Z.of_nat (i + k)))
                     /\ file_ext_of f = ".pdf") R.
Proof.
  induction files as [| f rest IH]; intros i res errs res' errs' w w' Hrun.
  - injection Hrun as <- <- <-. exists []. now rewrite app_nil_r.
  - cbn [process_files] in Hrun. unfold bind in Hrun.
    destruct (process_one env g i f (res, errs) w) as [[[res1 errs1] | e] w1]
      eqn:Hone; [| discriminate Hrun].
    apply IH in Hrun as (R & -> & HR).
    assert (HR' : Forall (fun d : dict =>
                exists k f0,
                  (f :: rest) !! k = Some f0
                  /\ d !! "file_index" = Some (VInt (Z.of_nat (i + k)))
                  /\ file_ext_of f0 = ".pdf") R).
    { eapply Forall_impl; [exact HR |].
      intros d (k & f0 & Hk & Hi & He). exists (S k), f0.
      split; [exact Hk |]. split; [| exact He].
      now replace (i + S k)%nat with (S i + k)%nat by lia. }
    unfold process_one, try_except, bind in Hone.
    destruct (process_single_document env f g (Z.of_nat i) w)
      as [[d | e] w2] eqn:Hcall.
    + destruct (d !! "error") eqn:Herr; injection Hone as <- <- <-.
      * now exists R.
      * exists (d :: R). split; [now rewrite <- app_assoc |].
        constructor; [| exact HR'].
        destruct (process_single_document_result_inv _ _ _ _ _ _ _
                    Hcall Herr)
          as (name & w3 & w4 & data & Hn & Hext & _ & _ & ->).
        exists 0%nat, f. split; [reflexivity |].
        rewrite Nat.add_0_r. split; [reflexivity |].
        unfold file_ext_of. now rewrite Hn.
    + injection Hone as <- <- <-. now exists R.
Qed.

(** X9.  Every FileResult of a summary belongs to a PDF: its [file_index]
    is the position, in the validated list, of a file whose extension is
    [.pdf].  The images that validation lets through never produce a
    result. *)
Theorem results_are_pdfs (env : Env) (files : list UploadFile) (g : bool)
    (w w' : World) (s : BatchSummary) :
  scan_documents env files g w = (Return s, w') ->
  Forall (fun d : dict =>
            exists k f,
              List.filter is_valid files !! k = Some f
              /\ d !! "file_index" = Some (VInt (Z.of_nat k))
              /\ file_ext_of f = ".pdf") (results s).
Proof.
  intros Hscan. rewrite scan_documents_cases in Hscan.
  destruct (validate env files (log EClock w)) as [[valid | e] w1] eqn:Hv;
    [| discriminate Hscan].
  apply validate_accepts in Hv as (-> & _).
  destruct (process_files env g (List.filter is_valid files) 0 ([], []) w1)
    as [[[res errs] | e] w2] eqn:Hloop; [| discriminate Hscan].
  injection Hscan as Hs <-. apply rendered_Return in Hs as [-> _].
  cbn [results].
  now apply process_files_results_pdf in Hloop as (R & -> & HR).
Qed.

Lemma results_are_pdfs_witness :
  exists s w',
    scan_documents (scripted all_ok) [upload "a.jpg" 0; upload "b.pdf" 1]
      false w0 = (Return s, w')
    /\ Forall (fun d : dict =>
                 exists k f,
                   List.filter is_valid [upload "a.jpg" 0; upload "b.pdf" 1]
                     !! k = Some f
                   /\ d !! "file_index" = Some (VInt (Z.of_nat k))
                   /\ file_ext_of f = ".pdf") (results s).
Proof.
  destruct (scan_documents (scripted all_ok)
              [upload "a.jpg" 0; upload "b.pdf" 1] false w0) as [r w']
    eqn:Hscan.
  assert (Hr : exists s, r = Return s).
  { apply (f_equal fst) in Hscan. cbn [fst] in Hscan. rewrite <- Hscan.
    vm_compute. eexists. reflexivity. }
  destruct Hr as [s ->]. exists s, w'. split; [reflexivity |].
  exact (results_are_pdfs (scripted all_ok)
           [upload "a.jpg" 0; upload "b.pdf" 1] false w0 w' s Hscan).
Defined.

(** X10.  [process_single_document] raises exactly when the upload has no
    filename.  It then raises before its [try] block: nothing is read,
    staged or sent, and the loop of [scan_documents] records the exception
    as a FileError whose filename is null and goes on. *)
Theorem raises_iff_unnamed (env : Env) (file : UploadFile) (g : bool)
    (idx : Z) (w : World) :
  ((exists e w', process_single_document env file g idx w = (Raise e, w'))
   <-> filename file = None)
  /\ (filename file = None ->
      process_single_document env file g idx w
      = (Raise (Exception
                  "expected str, bytes or os.PathLike object, not NoneType"),
         entered w)
      /\ forall (i : nat) (rest : list UploadFile) (res errs : list dict)
           (w0 : World),
           process_files env g (file :: rest) i (res, errs) w0
           = process_files env g rest (S i)
               (res,
                (errs ++ [error_entry (Z.of_nat i) None
                            (VStr "expected str, bytes or os.PathLike object, not NoneType")])%list)
               (entered w0)).
Proof.
  split; [split |].
  - intros (e & w' & Hrun).
    destruct (filename file) as [name |] eqn:Hn; [| reflexivity].
    destruct (process_single_document_result env file g idx w name Hn)
      as (d & w2 & w3 & _ & _ & Hret).
    rewrite Hret in Hrun. discriminate Hrun.
  - intros Hn. rewrite process_single_document_unnamed by exact Hn. eauto.
  - intros Hn. split.
    + now rewrite process_single_document_unnamed.
    + intros i rest res errs w0. cbn [process_files]. unfold bind at 1.
      unfold process_one, try_except, bind.
      rewrite process_single_document_unnamed by exact Hn.
      now rewrite Hn.
Qed.

(** ** Further properties: extensions and scratch paths *)

Module PathFacts.
Import Str StrFacts.

#[local] Arguments String.append !s1 s2 : simpl nomatch.

Lemma app_empty_r (s : string) : s ++ EmptyString = s.
Proof. induction s as [| c s IH]; simpl; [reflexivity | now rewrite IH]. Qed.

Lemma free_of_app (c : ascii) (x y : string) :
  free_of c (x ++ y) = free_of c x && free_of c y.
Proof.
  induction x as [| a x IH]; simpl; [reflexivity |].
  now rewrite IH, andb_assoc.
Qed.

Lemma free_of_drop (c : ascii) (n : nat) (s : string) :
  free_of c s = true -> free_of c (drop n s) = true.
Proof.
  revert s. induction n as [| n IH]; intros s H; [now destruct s |].
  destruct s as [| a s]; [reflexivity |]. simpl in *.
  apply andb_prop in H as [_ H]. now apply IH.
Qed.

Lemma drop_add (a b : nat) (s : string) :
  drop (a + b) s = drop b (drop a s).
Proof.
  revert s. induction a as [| a IH]; intros s; [now destruct s |].
  destruct s as [| c s]; [now destruct b |]. simpl. apply IH.
Qed.

Lemma take_drop (n : nat) (s : string) : take n s ++ drop n s = s.
Proof.
  revert s. induction n as [| n IH]; intros s; [now destruct s |].
  destruct s as [| c s]; [reflexivity |]. simpl. now rewrite IH.
Qed.

(** [rfind]: no occurrence, or the position of the last one. *)
Lemma rfind_from_spec (c : ascii) (s : string) :
  forall (i last : Z),
    (free_of c s = true /\ rfind_from i s c last = last)
    \/ (exists pre suf,
          s = pre ++ String c suf /\ free_of c suf = true
          /\ rfind_from i s c last = (i + Z.of_nat (String.length pre))%Z).
Proof.
  induction s as [| a s IH]; intros i last; [now left |].
  cbn [rfind_from free_of].
  destruct (IH (i + 1)%Z (if Ascii.eqb a c then i else last))
    as [[Hfree Hr] | (pre & suf & -> & Hfree & Hr)].
  - destruct (Ascii.eqb a c) eqn:Hac.
    + right. exists EmptyString, s. apply Ascii.eqb_eq in Hac. subst a.
      simpl. rewrite Hr. repeat split; [exact Hfree | lia].
    + left. now rewrite Hfree, Hr.
  - right. exists (String a pre), suf. simpl. rewrite Hr.
    repeat split; [exact Hfree | lia].
Qed.

Lemma rfind_spec (c : ascii) (s : string) :
  (free_of c s = true /\ rfind s c = (-1)%Z)
  \/ (exists pre suf,
        s = pre ++ String c suf /\ free_of c suf = true
        /\ rfind s c = Z.of_nat (String.length pre)).
Proof. apply (rfind_from_spec c s 0 (-1)). Qed.

(** Nothing after the position found is the character looked for. *)
Lemma rfind_after (c : ascii) (s : string) :
  (-1 <= rfind s c)%Z
  /\ free_of c (drop (Z.to_nat (rfind s c + 1)) s) = true.
Proof.
  destruct (rfind_spec c s) as [[Hfree ->] | (pre & suf & -> & Hfree & ->)].
  - split; [lia | exact Hfree].
  - split; [lia |].
    replace (Z.to_nat (Z.of_nat (String.length pre) + 1))
      with (String.length pre + 1)%nat by lia.
    rewrite drop_add, drop_app. exact Hfree.
Qed.

Lemma lower_char_idem (c : ascii) : lower_char (lower_char c) = lower_char c.
Proof. destruct c as [[] [] [] [] [] [] [] []]; reflexivity. Qed.

Lemma lower_char_eqb_dot (c : ascii) :
  Ascii.eqb (lower_char c) "." = Ascii.eqb c ".".
Proof. destruct c as [[] [] [] [] [] [] [] []]; reflexivity. Qed.

Lemma lower_char_eqb_slash (c : ascii) :
  Ascii.eqb (lower_char c) "/" = Ascii.eqb c "/".
Proof. destruct c as [[] [] [] [] [] [] [] []]; reflexivity. Qed.

Lemma lower_idem (s : string) : lower (lower s) = lower s.
Proof.
  induction s as [| c s IH]; simpl; [reflexivity |].
  now rewrite lower_char_idem, IH.
Qed.

Lemma lower_app (x y : string) : lower (x ++ y) = lower x ++ lower y.
Proof. induction x as [| c x IH]; simpl; [reflexivity | now rewrite IH]. Qed.

Lemma free_of_lower (c : ascii) (s : string) :
  (forall a, Ascii.eqb (lower_char a) c = Ascii.eqb a c) ->
  free_of c (lower s) = free_of c s.
Proof.
  intros Hc. induction s as [| a s IH]; simpl; [reflexivity |].
  now rewrite Hc, IH.
Qed.

(** The two halves of [splitext] make up the path; the second half is
    empty or starts at the last dot, which comes after the last slash. *)
Lemma splitext_spec (p : string) :
  fst (splitext p) ++ snd (splitext p) = p
  /\ (snd (splitext p) = EmptyString
      \/ exists r, snd (splitext p) = String "." r /\ free_of "." r = true)
  /\ free_of "/" (snd (splitext p)) = true.
Proof.
  unfold splitext.
  destruct ((rfind p "/" <? rfind p ".")%Z
            && has_stem p (Z.to_nat (rfind p "." - (rfind p "/" + 1)))
                 (rfind p "/" + 1)) eqn:Hcond; cbn [fst snd].
  2:{ split; [apply app_empty_r | split; [now left | reflexivity]]. }
  apply andb_prop in Hcond as [Hlt _]. apply Z.ltb_lt in Hlt.
  split; [apply take_drop |].
  destruct (rfind_after "/" p) as [Hsep Hslash].
  destruct (rfind_spec "." p) as [[_ Hdot] | (pre & suf & Hp & Hfree & Hdot)];
    [lia |].
  split.
  - right. exists suf. split; [| exact Hfree].
    rewrite Hdot, Nat2Z.id, Hp. apply drop_app.
  - replace (Z.to_nat (rfind p "."))
      with (Z.to_nat (rfind p "/" + 1)
            + Z.to_nat (rfind p "." - (rfind p "/" + 1)))%nat by lia.
    rewrite drop_add. now apply free_of_drop.
Qed.

End PathFacts.

Lemma ext_of_dot (name : string) :
  ext_of name = EmptyString
  \/ exists r, ext_of name = String "." r /\ free_of "." r = true.
Proof.
  destruct (PathFacts.splitext_spec name) as (_ & Hshape & _).
  unfold ext_of. destruct Hshape as [-> | (r & -> & Hr)]; [now left | right].
  exists (Str.lower r). split; [reflexivity |].
  rewrite PathFacts.free_of_lower; [exact Hr |].
  apply PathFacts.lower_char_eqb_dot.
Qed.

Lemma ext_of_no_slash (name : string) : free_of "/" (ext_of name) = true.
Proof.
  destruct (PathFacts.splitext_spec name) as (_ & _ & Hslash).
  unfold ext_of. rewrite PathFacts.free_of_lower; [exact Hslash |].
  apply PathFacts.lower_char_eqb_slash.
Qed.

(** X11.  The extension the code computes for a filename (lines 80 and 181)
    is empty or a dot followed by characters among which there is no dot;
    it contains no slash whatever the filename is, and it is in lower case.
    The filename is the stem followed by the extension as it was
    written. *)
Theorem extension_shape (name : string) :
  (ext_of name = EmptyString
   \/ exists r, ext_of name = String "." r /\ free_of "." r = true)
  /\ free_of "/" (ext_of name) = true
  /\ Str.lower (ext_of name) = ext_of name
  /\ fst (Str.splitext name) ++ snd (Str.splitext name) = name.
Proof.
  split; [apply ext_of_dot |].
  split; [apply ext_of_no_slash |].
  split.
  - unfold ext_of. apply PathFacts.lower_idem.
  - now destruct (PathFacts.splitext_spec name) as (Hsplit & _).
Qed.

Module NumeralFacts.
Import Str StrFacts.

#[local] Arguments String.append !s1 s2 : simpl nomatch.

Lemma pretty_N_char_numeral (x : N) : is_numeral (pretty_N_char x) = true.
Proof. unfold pretty_N_char. now repeat case_match. Qed.

Lemma pretty_N_go_numeral (x : N) :
  forall s,
    all_chars is_numeral s = true ->
    all_chars is_numeral (pretty_N_go x s) = true.
Proof.
  induction (N.lt_wf_0 x) as [x _ IH]. intros s Hs.
  destruct (decide (x = 0)%N) as [-> | Hx]; [exact Hs |].
  rewrite pretty_N_go_step by lia.
  apply IH; [apply N.div_lt; lia |].
  simpl. now rewrite pretty_N_char_numeral.
Qed.

Lemma pretty_N_numeral (x : N) : all_chars is_numeral (pretty x) = true.
Proof.
  unfold pretty, pretty_N. case_decide; [reflexivity |].
  now apply pretty_N_go_numeral.
Qed.

(** The decimal rendering of an index: digits, after a minus sign if the
    index is negative. *)
Lemma pretty_Z_numeral (z : Z) : all_chars is_numeral (pretty z) = true.
Proof.
  destruct z as [| p | p]; [reflexivity | apply pretty_N_numeral |].
  change (pretty (Z.neg p)) with (String "-" (pretty (N.pos p))).
  simpl. apply pretty_N_numeral.
Qed.

Lemma numeral_free (c : ascii) (s : string) :
  is_numeral c = false ->
  all_chars is_numeral s = true -> free_of c s = true.
Proof.
  intros Hc. induction s as [| a s IH]; simpl; [reflexivity |].
  intros H. apply andb_prop in H as [Ha Hs]. rewrite (IH Hs), andb_true_r.
  apply negb_true_iff, Ascii.eqb_neq. intros ->. congruence.
Qed.

(** A numeral followed by an extension splits in one way only. *)
Lemma numeral_ext_inj (d1 d2 e1 e2 : string) :
  all_chars is_numeral d1 = true -> all_chars is_numeral d2 = true ->
  (e1 = EmptyString \/ exists r, e1 = String "." r) ->
  (e2 = EmptyString \/ exists r, e2 = String "." r) ->
  d1 ++ e1 = d2 ++ e2 -> d1 = d2.
Proof.
  revert d2. induction d1 as [| a d1 IH]; intros d2 H1 H2 He1 He2 Heq.
  - destruct d2 as [| b d2]; [reflexivity |]. simpl in *.
    apply andb_prop in H2 as [Hb _].
    destruct He1 as [-> | [r ->]]; [discriminate Heq |].
    injection Heq as <- _. discriminate Hb.
  - destruct d2 as [| b d2]; simpl in *.
    + apply andb_prop in H1 as [Ha _].
      destruct He2 as [-> | [r ->]]; [discriminate Heq |].
      injection Heq as -> _. discriminate Ha.
    + apply andb_prop in H1 as [_ H1]. apply andb_prop in H2 as [_ H2].
      injection Heq as -> Heq. f_equal. now apply (IH d2).
Qed.

Lemma temp_path_shape (u : string) (idx : Z) (file_ext : string) :
  temp_path u idx file_ext
  = "tmp/" ++ take 8 u ++ "_" ++ pretty idx ++ file_ext.
Proof. unfold temp_path. now rewrite !app_assoc. Qed.

End NumeralFacts.

(** X12.  Whatever the uploaded filename is, the scratch copy is a direct
    child of the staging directory: as long as the random token has no
    slash, the scratch path is [tmp/] followed by a name without any
    slash, so a filename cannot steer the copy to another directory. *)
Theorem scratch_in_staging (u : string) (idx : Z) (name : string) :
  free_of "/" (Str.take 8 u) = true ->
  exists rest,
    temp_path u idx (ext_of name) = "tmp/" ++ rest
    /\ free_of "/" rest = true.
Proof.
  intros Hu. exists (Str.take 8 u ++ "_" ++ pretty idx ++ ext_of name).
  split; [apply NumeralFacts.temp_path_shape |].
  rewrite !PathFacts.free_of_app, Hu.
  rewrite (NumeralFacts.numeral_free "/" (pretty idx) eq_refl
             (NumeralFacts.pretty_Z_numeral idx)).
  rewrite (ext_of_no_slash name). reflexivity.
Qed.

Lemma scratch_in_staging_witness :
  free_of "/" (Str.take 8 "0f8fad5b-d9cb-469f-a165-70867728950e") = true
  /\ exists rest,
       temp_path "0f8fad5b-d9cb-469f-a165-70867728950e" 3
         (ext_of "../../etc/passwd.PDF") = "tmp/" ++ rest
       /\ free_of "/" rest = true.
Proof.
  split; [reflexivity |].
  apply (scratch_in_staging "0f8fad5b-d9cb-469f-a165-70867728950e" 3
           "../../etc/passwd.PDF" eq_refl).
Defined.

(** X13.  Within a batch two files never share a scratch path, even when
    their random tokens and their filenames are the same: different indices
    give different paths. *)
Theorem scratch_paths_differ (u : string) (i j : Z) (n1 n2 : string) :
  i <> j ->
  temp_path u i (ext_of n1) <> temp_path u j (ext_of n2).
Proof.
  intros Hij Heq. apply Hij.
  rewrite !NumeralFacts.temp_path_shape in Heq.
  apply (inj (String.append "tmp/")) in Heq.
  apply (inj (String.append (Str.take 8 u))) in Heq.
  apply (inj (String.append "_")) in Heq.
  apply (inj pretty).
  apply (NumeralFacts.numeral_ext_inj _ _ (ext_of n1) (ext_of n2));
    auto using NumeralFacts.pretty_Z_numeral.
  - destruct (ext_of_dot n1) as [-> | (r & -> & _)]; eauto.
  - destruct (ext_of_dot n2) as [-> | (r & -> & _)]; eauto.
Qed.

Lemma scratch_paths_differ_witness :
  (0 <> 1)%Z
  /\ temp_path "0f8fad5b-d9cb-469f-a165-70867728950e" 0 (ext_of "a.pdf")
     <> temp_path "0f8fad5b-d9cb-469f-a165-70867728950e" 1 (ext_of "a.pdf").
Proof.
  split; [discriminate |].
  apply (scratch_paths_differ "0f8fad5b-d9cb-469f-a165-70867728950e" 0 1
           "a.pdf" "a.pdf").
  discriminate.
Defined.


Module ExtFacts.
Import Str StrFacts PathFacts.

#[local] Arguments String.append !s1 s2 : simpl nomatch.

Lemma rfind_from_free (c : ascii) (s : string) :
  forall i last, free_of c s = true -> rfind_from i s c last = last.
Proof.
  induction s as [| a s IH]; intros i last H; [reflexivity |].
  simpl in *. apply andb_prop in H as [Ha Hs].
  apply negb_true_iff in Ha. rewrite Ha. now apply IH.
Qed.

Lemma rfind_from_last (c : ascii) (pre suf : string) :
  forall i last,
    free_of c suf = true ->
    rfind_from i (pre ++ String c suf) c last
    = (i + Z.of_nat (String.length pre))%Z.
Proof.
  induction pre as [| a pre IH]; intros i last H; simpl.
  - rewrite Ascii.eqb_refl, rfind_from_free by exact H. lia.
  - rewrite IH by exact H. lia.
Qed.

(** [splitext] of a plain file name with a written extension. *)
Lemma splitext_plain (c0 : ascii) (s e : string) :
  c0 <> "."%char ->
  free_of "/" (String c0 s) = true ->
  free_of "." e = true -> free_of "/" e = true ->
  splitext (String c0 s ++ String "." e) = (String c0 s, String "." e).
Proof.
  intros Hc Hs He Hse. unfold splitext.
  assert (Hsep : rfind (String c0 s ++ String "." e) "/" = (-1)%Z).
  { unfold rfind. apply rfind_from_free.
    rewrite free_of_app, Hs. simpl. exact Hse. }
  assert (Hdot : rfind (String c0 s ++ String "." e) "."
                 = Z.of_nat (String.length (String c0 s))).
  { unfold rfind. now rewrite rfind_from_last. }
  rewrite Hsep, Hdot.
  replace (-1 <? Z.of_nat (String.length (String c0 s)))%Z with true
    by (symmetry; apply Z.ltb_lt; lia).
  replace (Z.to_nat (Z.of_nat (String.length (String c0 s)) - (-1 + 1)))
    with (S (String.length s)) by (simpl; lia).
  cbn [has_stem andb]. change (-1 + 1)%Z with 0%Z.
  assert (Hfirst : String.eqb (char_at (String c0 s ++ String "." e) 0) "."
                   = false).
  { unfold char_at. simpl.
    destruct (Ascii.eqb c0 ".") eqn:E; [| reflexivity].
    apply Ascii.eqb_eq in E. contradiction. }
  rewrite Hfirst, Nat2Z.id, take_app, drop_app. reflexivity.
Qed.

Lemma rfind_from_lower (c : ascii) (s : string) :
  (forall a, Ascii.eqb (lower_char a) c = Ascii.eqb a c) ->
  forall i last, rfind_from i (lower s) c last = rfind_from i s c last.
Proof.
  intros Hc. induction s as [| a s IH]; intros i last; [reflexivity |].
  simpl. now rewrite Hc, IH.
Qed.

Lemma take_lower (n : nat) (s : string) : take n (lower s) = lower (take n s).
Proof.
  revert s. induction n as [| n IH]; intros [| c s]; simpl;
    [reflexivity.. |]. now rewrite IH.
Qed.

Lemma drop_lower (n : nat) (s : string) : drop n (lower s) = lower (drop n s).
Proof.
  revert s. induction n as [| n IH]; intros [| c s]; simpl;
    [reflexivity.. |]. apply IH.
Qed.

Lemma char_at_lower (p : string) (i : Z) :
  String.eqb (char_at (lower p) i) "." = String.eqb (char_at p i) ".".
Proof.
  unfold char_at. rewrite drop_lower.
  destruct (drop (Z.to_nat i) p) as [| c r]; [reflexivity |].
  simpl. now rewrite lower_char_eqb_dot.
Qed.

Lemma has_stem_lower (p : string) (n : nat) :
  forall i, has_stem (lower p) n i = has_stem p n i.
Proof.
  induction n as [| n IH]; intros i; [reflexivity |].
  simpl. now rewrite char_at_lower, IH.
Qed.

Lemma splitext_lower (p : string) :
  splitext (lower p)
  = (lower (fst (splitext p)), lower (snd (splitext p))).
Proof.
  unfold splitext, rfind.
  rewrite !rfind_from_lower
    by (apply lower_char_eqb_slash || apply lower_char_eqb_dot).
  rewrite has_stem_lower.
  destruct ((rfind_from 0 p "/" (-1) <? rfind_from 0 p "." (-1))%Z
            && has_stem p _ _); cbn [fst snd]; [| reflexivity].
  now rewrite take_lower, drop_lower.
Qed.

Lemma lstrip_suffix (s : string) : exists pre, s = pre ++ lstrip s.
Proof.
  induction s as [| c s [pre IH]]; [now exists EmptyString |].
  simpl. destruct (isspace c).
  - exists (String c pre). simpl. now rewrite <- IH.
  - now exists EmptyString.
Qed.

Lemma rstrip_prefix (s : string) : exists suf, s = rstrip s ++ suf.
Proof.
  induction s as [| c s [suf IH]]; [now exists EmptyString |].
  simpl. destruct (rstrip s) as [| a r] eqn:E.
  - destruct (isspace c).
    + now exists (String c s).
    + exists s. reflexivity.
  - exists suf. change (String c s = String c (String a r ++ suf)).
    now f_equal.
Qed.

Lemma drop_suffix (n : nat) (s : string) : exists pre, s = pre ++ drop n s.
Proof. exists (take n s). symmetry. apply take_drop. Qed.

Lemma take_prefix (n : nat) (s : string) : exists suf, s = take n s ++ suf.
Proof. exists (drop n s). symmetry. apply take_drop. Qed.

Lemma infix_refl (s : string) : infix_of s s.
Proof. exists EmptyString, EmptyString. simpl. now rewrite app_empty_r. Qed.

Lemma infix_trans (a b c : string) :
  infix_of a b -> infix_of b c -> infix_of a c.
Proof.
  intros (p1 & s1 & ->) (p2 & s2 & ->).
  exists (p2 ++ p1), (s1 ++ s2). now rewrite !app_assoc.
Qed.

Lemma infix_suffix (pre s : string) : infix_of s (pre ++ s).
Proof. exists pre, EmptyString. now rewrite app_empty_r. Qed.

Lemma infix_prefix (s suf : string) : infix_of s (s ++ suf).
Proof. now exists EmptyString, suf. Qed.

Lemma strip_infix (s : string) : infix_of (strip s) s.
Proof.
  unfold strip. destruct (lstrip_suffix s) as [pre Hs].
  destruct (rstrip_prefix (lstrip s)) as [suf Hr].
  apply (infix_trans _ (lstrip s)).
  - rewrite Hr at 2. apply infix_prefix.
  - rewrite Hs at 2. apply infix_suffix.
Qed.

Lemma leading_infix (s : string) : infix_of (strip_leading_fence s) s.
Proof.
  unfold strip_leading_fence.
  destruct (startswith s "```json").
  - destruct (drop_suffix 7 s) as [pre H]. rewrite H at 2.
    apply infix_suffix.
  - destruct (startswith s "```"); [| apply infix_refl].
    destruct (drop_suffix 3 s) as [pre H]. rewrite H at 2.
    apply infix_suffix.
Qed.

Lemma trailing_infix (s : string) : infix_of (strip_trailing_fence s) s.
Proof.
  unfold strip_trailing_fence, drop_last.
  destruct (endswith s "```"); [| apply infix_refl].
  destruct (take_prefix (String.length s - 3) s) as [suf H]. rewrite H at 3.
  apply infix_prefix.
Qed.

Lemma infix_length (a b : string) :
  infix_of a b -> (String.length a <= String.length b)%nat.
Proof. intros (p & s & ->). rewrite !length_app. lia. Qed.

End ExtFacts.

(** X14.  A plain file name with a written extension gets that extension
    in lower case: for a name [stem.e] whose stem has no slash and does not
    begin with a dot and whose [e] has neither dot nor slash, the code
    computes [.lower(e)].  Such a name passes the extension check exactly
    when [lower(e)] is one of pdf, jpg, jpeg, png, and takes the direct
    path exactly when it is pdf. *)
Theorem written_extension (c0 : ascii) (s e : string) (n : nat) :
  c0 <> "."%char ->
  free_of "/" (String c0 s) = true ->
  free_of "." e = true -> free_of "/" e = true ->
  let name := String c0 s ++ String "." e in
  ext_of name = String "." (Str.lower e)
  /\ (offending (mkUpload (Some name) n) = false
      <-> String "." (Str.lower e) ∈ allowed_extensions)
  /\ (String.eqb (ext_of name) ".pdf" = true <-> Str.lower e = "pdf").
Proof.
  intros Hc Hs He Hse name.
  assert (Hext : ext_of name = String "." (Str.lower e)).
  { unfold ext_of, name. now rewrite ExtFacts.splitext_plain. }
  split; [exact Hext |]. split.
  - rewrite offending_allowed. unfold file_ext_of. cbn [filename].
    now rewrite Hext.
  - rewrite Hext, String.eqb_eq. split; [now intros [= ->] | now intros ->].
Qed.

Lemma written_extension_witness :
  "r"%char <> "."%char
  /\ ext_of "report.v2.PDF" = ".pdf"
  /\ offending (mkUpload (Some "report.PdF") 0) = false.
Proof.
  split; [discriminate |]. split; [reflexivity |].
  apply (proj2 (written_extension "r" "eport" "PdF" 0 ltac:(discriminate)
                  eq_refl eq_refl eq_refl)).
  apply (bool_decide_eq_true_1 _). reflexivity.
Defined.

(** X15.  For a filename made of ASCII characters, the extension does not
    depend on the case of the letters: the filename in lower case gets the
    same extension, so it is accepted or refused, and sent to the direct
    path or not, like the filename as it was written. *)
Theorem extension_ignores_case (name : string) (n : nat) :
  all_chars is_ascii name = true ->
  all_chars is_ascii (Str.lower name) = true
  /\ ext_of (Str.lower name) = ext_of name
  /\ offending (mkUpload (Some (Str.lower name)) n)
     = offending (mkUpload (Some name) n).
Proof.
  intros Hascii.
  assert (H : ext_of (Str.lower name) = ext_of name).
  { unfold ext_of. rewrite ExtFacts.splitext_lower. cbn [snd].
    apply PathFacts.lower_idem. }
  split; [| split; [exact H |]].
  - clear H. induction name as [| c r IH]; [reflexivity |].
    cbn [Str.lower all_chars] in *.
    apply andb_true_iff in Hascii as [Hc Hr].
    rewrite (IH Hr), andb_true_r. clear IH Hr. revert Hc.
    destruct c as [[] [] [] [] [] [] [] []]; vm_compute; intros Hc;
      first [reflexivity | discriminate Hc].
  - unfold offending, file_ext_of. cbn [filename]. now rewrite H.
Qed.

Lemma extension_ignores_case_witness :
  all_chars is_ascii "Ticket.PDF" = true
  /\ ext_of "ticket.pdf" = ext_of "Ticket.PDF".
Proof.
  split; [reflexivity |].
  exact (proj1 (proj2 (extension_ignores_case "Ticket.PDF" 0 eq_refl))).
Defined.

(** X16.  The normaliser only cuts: the text it hands to the JSON reader is
    a contiguous piece of the raw response, so no character of the body is
    changed, and it is never longer than the raw response. *)
Theorem normalizer_only_cuts (text : string) :
  infix_of (normalize_response text) text
  /\ (String.length (normalize_response text) <= String.length text)%nat.
Proof.
  assert (H : infix_of (normalize_response text) text).
  { unfold normalize_response.
    eapply ExtFacts.infix_trans; [apply ExtFacts.strip_infix |].
    eapply ExtFacts.infix_trans; [apply ExtFacts.trailing_infix |].
    eapply ExtFacts.infix_trans; [apply ExtFacts.leading_infix |].
    apply ExtFacts.strip_infix. }
  split; [exact H | now apply ExtFacts.infix_length].
Qed.

(** ** Further properties: what a FileResult stands for *)

Lemma gemini_direct_inv (env : Env) (path : string) (w w3 : World)
    (data : json) :
  gemini_direct env path w = (Return data, w3) ->
  exists rname r raw,
    upload_file env path "application/pdf" w = Ok rname
    /\ generate_content env "gemini-2.5-flash" rname get_extraction_prompt
         (log (EUpload path true) w) = Ok r
    /\ delete_file env rname (answered path rname w) = Ok tt
    /\ text r = Ok raw
    /\ json_loads env (normalize_response raw) = Ok data.
Proof.
  unfold gemini_direct, bind, genai_upload_file, genai_generate_content,
    genai_delete_file, call, of_outcome, ret, raise, answered.
  destruct (upload_file env path "application/pdf" w) as [rname |] eqn:Hup;
    [| refute_eq]. cbn [id].
  destruct (generate_content env "gemini-2.5-flash" rname
              get_extraction_prompt (log (EUpload path true) w)) as [r |]
    eqn:Hgen; [| refute_eq]. cbn [id].
  destruct (delete_file env rname
              (log (EGenerate rname true) (log (EUpload path true) w)))
    as [[] |] eqn:Hdel; [| refute_eq]. cbn [id].
  destruct (text r) as [raw |] eqn:Htext; [| refute_eq].
  destruct (json_loads env (normalize_response raw)) as [j |] eqn:Hj;
    [| refute_eq].
  intros H. injection H as -> _. exists rname, r, raw.
  repeat split; assumption.
Qed.

(** X17.  A FileResult is returned only after everything succeeded: if
    [process_single_document] returns a dictionary without the key [error],
    the file is a named PDF, its upload was read and staged, the remote
    upload, the generation and the remote deletion succeeded, and the
    [data] of the dictionary is what the JSON reader makes of the
    normalised text of the response. *)
Theorem result_provenance (env : Env) (file : UploadFile) (g : bool)
    (idx : Z) (w w' : World) (d : dict) :
  process_single_document env file g idx w = (Return d, w') ->
  d !! "error" = None ->
  exists name w1 rname r raw data t,
    filename file = Some name
    /\ ext_of name = ".pdf"
    /\ save_upload env file (scratch_path env file idx w) (entered w)
       = (Return tt, w1)
    /\ upload_file env (scratch_path env file idx w) "application/pdf" w1
       = Ok rname
    /\ generate_content env "gemini-2.5-flash" rname get_extraction_prompt
         (log (EUpload (scratch_path env file idx w) true) w1) = Ok r
    /\ delete_file env rname
         (answered (scratch_path env file idx w) rname w1) = Ok tt
    /\ text r = Ok raw
    /\ json_loads env (normalize_response raw) = Ok data
    /\ d = result_dict idx (Some name) t data.
Proof.
  intros Hrun Hnoerr.
  destruct (process_single_document_result_inv _ _ _ _ _ _ _ Hrun Hnoerr)
    as (name & w1 & w3 & data & Hn & Hext & Hsave & Hgem & ->).
  destruct (gemini_direct_inv _ _ _ _ _ Hgem)
    as (rname & r & raw & Hup & Hgen & Hdel & Htext & Hloads).
  exists name, w1, rname, r, raw, data, (clock env w3 - clock env w)%Z.
  repeat split; assumption.
Qed.

Lemma result_provenance_witness :
  exists d w',
    process_single_document (scripted all_ok) (upload "a.pdf" 0) false 0 w0
    = (Return d, w')
    /\ d !! "error" = None
    /\ exists t, d = result_dict 0 (Some "a.pdf") t flight_object.
Proof.
  destruct (process_single_document (scripted all_ok) (upload "a.pdf" 0)
              false 0 w0) as [r w'] eqn:Hrun.
  assert (Hr : exists d, r = Return d /\ d !! "error" = None).
  { apply (f_equal fst) in Hrun. cbn [fst] in Hrun. rewrite <- Hrun.
    vm_compute. eexists. split; reflexivity. }
  destruct Hr as (d & -> & Hnoerr). exists d, w'.
  split; [reflexivity |]. split; [exact Hnoerr |].
  destruct (result_provenance (scripted all_ok) (upload "a.pdf" 0) false 0
              w0 w' d Hrun Hnoerr)
    as (name & w1 & rname & r & raw & data & t & Hn & _ & _ & _ & Hgen & _
        & Htext & Hloads & ->).
  injection Hn as <-. injection Hgen as <-. cbn [text text_ans all_ok] in Htext.
  injection Htext as <-.
  assert (Hd : data = flight_object).
  { cbn [json_loads scripted] in Hloads.
    change (Json.loads (normalize_response fenced_flight))
      with (Ok flight_object) in Hloads.
    now injection Hloads as <-. }
  subst data. now exists t.
Defined.

(** X18.  Images pass validation and then fail in the processor: when a
    batch is accepted and none of its files is a PDF, the summary has no
    result, every retained file is counted as failed, and the key [errors]
    is present. *)
Theorem images_accepted_then_failed (env : Env) (files : list UploadFile)
    (g : bool) (w w' : World) (s : BatchSummary) :
  Forall (fun f => file_ext_of f <> ".pdf") files ->
  scan_documents env files g w = (Return s, w') ->
  results s = []
  /\ successful_extractions s = 0%nat
  /\ failed_extractions s = total_files s
  /\ total_files s = List.length (List.filter is_valid files)
  /\ (0 < total_files s)%nat
  /\ exists errs, errors s = Some errs /\ List.length errs = total_files s.
Proof.
  intros Hall Hscan. rewrite scan_documents_cases in Hscan.
  destruct (validate env files (log EClock w)) as [[valid | e] w1] eqn:Hv;
    [| discriminate Hscan].
  apply validate_accepts in Hv as (-> & Hne & -> & _).
  destruct (process_files_outcomes env g (List.filter is_valid files) 0 [] []
              (log EClock w)) as (R & E & w2 & Hrun & Hout).
  rewrite Hrun in Hscan. cbn [app] in Hscan. injection Hscan as Hs _.
  apply rendered_Return in Hs as [-> _].
  cbn [results successful_extractions failed_extractions total_files errors].
  pose proof (Outcomes_length _ _ _ _ Hout) as Hlen.
  apply process_files_results_pdf in Hrun as (R' & HR' & Hpdf).
  cbn [app] in HR'. subst R'.
  assert (HR : R = []).
  { destruct R as [| d R]; [reflexivity |]. exfalso.
    apply Forall_cons in Hpdf as [(k & f & Hk & _ & Hext) _].
    apply list_elem_of_lookup_2, list_elem_of_In, filter_In in Hk as [Hin _].
    rewrite List.Forall_forall in Hall. exact (Hall f Hin Hext). }
  subst R. cbn [List.length] in *.
  assert (Hpos : (0 < List.length (List.filter is_valid files))%nat).
  { destruct (List.filter is_valid files); [now destruct Hne | simpl; lia]. }
  repeat split; try lia.
  destruct E as [| e0 E]; [simpl in Hlen; lia |].
  eexists. split; [reflexivity | lia].
Qed.

Lemma images_accepted_then_failed_witness :
  Forall (fun f => file_ext_of f <> ".pdf") two_images
  /\ exists s w',
       scan_documents (scripted all_ok) two_images true w0 = (Return s, w')
       /\ results s = []
       /\ failed_extractions s = 2%nat.
Proof.
  assert (H : Forall (fun f => file_ext_of f <> ".pdf") two_images)
    by (repeat constructor; discriminate).
  split; [exact H |].
  destruct (scan_documents (scripted all_ok) two_images true w0) as [r w']
    eqn:Hscan.
  assert (Hr : exists s, r = Return s).
  { apply (f_equal fst) in Hscan. cbn [fst] in Hscan. rewrite <- Hscan.
    vm_compute. eexists. reflexivity. }
  destruct Hr as [s ->]. exists s, w'. split; [reflexivity |].
  destruct (images_accepted_then_failed (scripted all_ok) two_images true w0
              w' s H Hscan) as (Hres & _ & Hfail & Htot & _).
  split; [exact Hres |]. rewrite Hfail, Htot. reflexivity.
Defined.
